(** * smartdraw: the layered raster engine of [src/image-editor/renderer.ts]

    A shallow embedding of the [Renderer] class: its layers, its snapshot
    history, the view transform, the selection rectangle and the pixel
    loops of the erase, smudge and mask conversions.

    Conventions of the embedding.
    - A JavaScript [number] is a rational ([Q]): the arguments of a method
      stand for finite doubles, whose 32-bit range as a [long] is not
      modelled.  Arithmetic is exact, except where [smudgeLine] computes
      the colour it stores in a byte, which follows the double-precision
      operations of the source one by one.  Canvas and image dimensions,
      which the DOM keeps as integers, are in [Z].
    - An [ImageData] is its width, its height and its pixels in row-major
      order; the byte [data[4*k + c]] of the source is channel [c] of the
      [k]-th pixel here.
    - A canvas is modelled by its bitmap.  [getContext("2d")] on a canvas
      that is only ever used with the 2d context returns that context, so
      [getContext] is total; the guards [if (ctx)] of the source are kept.
    - [getImageData] throws for a window without pixels and
      [drawImage] for a canvas without pixels, as the DOM does, in
      [erasePoint], [smudgeLine] and [expandToOverlay]; the layers and
      images are taken to have pixels where [snapshot], [setBaseImage],
      [commitSelection], [copyEditImageFromBaseImage] and the reference
      and overlay setters read or draw the whole of one.
      The images drawn are taken to be of the page's origin, so that
      reading a canvas back is allowed.
    - A canvas keeps its colours premultiplied by alpha: what is written
      with [putImageData] is read back as the platform's [stored] value
      of it, which is transparent black under alpha 0.
    - [render()] only writes the output canvas, whose pixels are not
      tracked; listeners are counted, not run. *)

From Stdlib Require Import String ZArith QArith Qround Qminmax Qabs.
From Stdlib Require Import List Bool Lia Arith.
Import ListNotations.

Local Open Scope Z_scope.

(** ** Pixels and rasters *)

Record Pixel : Type := mkPixel { R : Z; G : Z; B : Z; A : Z }.

Definition transparentBlack : Pixel := mkPixel 0 0 0 0.

Definition Pixel_eqb (p q : Pixel) : bool :=
  (R p =? R q) && (G p =? G q) && (B p =? B q) && (A p =? A q).

Module ImageData.
Record t : Type := mk { width : Z; height : Z; data : list Pixel }.
End ImageData.
Abbreviation ImageData := ImageData.t.

(** A canvas element, seen through its 2d context: a bitmap. *)
Definition Canvas : Type := ImageData.

Definition area (w h : Z) : nat := (Z.to_nat w * Z.to_nat h)%nat.

(** The [n] integers from [start] on. *)
Fixpoint range (start : Z) (n : nat) : list Z :=
  match n with
  | O => []
  | S n' => start :: range (start + 1) n'
  end.

(** Row-major pixels of a [w] x [h] raster whose pixel at column [x], row
    [y] is [f x y]. *)
Definition tabulate (w h : Z) (f : Z -> Z -> Pixel) : list Pixel :=
  map (fun k => f (k mod w) (k / w)) (range 0 (area w h)).

Definition raster (w h : Z) (f : Z -> Z -> Pixel) : ImageData :=
  ImageData.mk w h (tabulate w h f).

Definition inside (w h x y : Z) : bool :=
  (0 <=? x) && (x <? w) && (0 <=? y) && (y <? h).

(** [data[(y * width + x) * 4 ..]]; transparent black outside the raster,
    which is what [getImageData] returns there. *)
Definition pixelAt (img : ImageData) (x y : Z) : Pixel :=
  if inside (ImageData.width img) (ImageData.height img) x y
  then nth (Z.to_nat (y * ImageData.width img + x)) (ImageData.data img)
           transparentBlack
  else transparentBlack.

Definition wf (img : ImageData) : Prop :=
  0 <= ImageData.width img /\ 0 <= ImageData.height img /\
  length (ImageData.data img) =
    area (ImageData.width img) (ImageData.height img).

Definition wfb (img : ImageData) : bool :=
  (0 <=? ImageData.width img) && (0 <=? ImageData.height img) &&
  (length (ImageData.data img) =?
     area (ImageData.width img) (ImageData.height img))%nat.

(** [document.createElement("canvas")] followed by setting its size, and
    also any assignment to [canvas.width] or [canvas.height]: the bitmap is
    reset to transparent black. *)
Definition blankCanvas (w h : Z) : Canvas :=
  raster w h (fun _ _ => transparentBlack).

(** [getContext("2d")]. *)
Definition getContext (c : Canvas) : option Canvas := Some c.

(** What a call returns or throws. *)
Inductive Result (T : Type) : Type :=
| Ok (value : T)
| Throw (message : string).
Arguments Ok {T} value.
Arguments Throw {T} message.

Definition bind {T U : Type} (r : Result T) (k : T -> Result U) : Result U :=
  match r with
  | Ok value => k value
  | Throw message => Throw message
  end.

Notation "'let*' x ':=' r 'in' k" :=
  (bind r (fun x => k))
    (at level 10, x name, r at level 100, k at level 200, only parsing).

(** The pixels of a rectangle of a canvas, transparent black where the
    rectangle leaves the canvas; a negative extent denotes the rectangle
    on the other side of the origin. *)
Definition region (c : Canvas) (sx sy sw sh : Z) : ImageData :=
  let x0 := if sw <? 0 then sx + sw else sx in
  let y0 := if sh <? 0 then sy + sh else sy in
  raster (Z.abs sw) (Z.abs sh) (fun x y => pixelAt c (x0 + x) (y0 + y)).

(** [ctx.getImageData(sx, sy, sw, sh)]: an [IndexSizeError] when the width
    or the height is 0. *)
Definition getImageData (c : Canvas) (sx sy sw sh : Z) : Result ImageData :=
  if (sw =? 0) || (sh =? 0) then Throw "IndexSizeError"%string
  else Ok (region c sx sy sw sh).

(** [ctx.putImageData(img, dx, dy)]: the pixels of [img] replace those of
    the canvas, without blending; what falls outside is dropped.  The
    pixels are taken as the canvas keeps them: data that were not read
    from a canvas are passed through [asStored] first. *)
Definition putImageData (c : Canvas) (img : ImageData) (dx dy : Z) : Canvas :=
  raster (ImageData.width c) (ImageData.height c)
    (fun x y =>
       if inside (ImageData.width img) (ImageData.height img) (x - dx) (y - dy)
       then pixelAt img (x - dx) (y - dy)
       else pixelAt c x y).

(** [ctx.clearRect(0, 0, canvas.width, canvas.height)]. *)
Definition clearRect (c : Canvas) : Canvas :=
  blankCanvas (ImageData.width c) (ImageData.height c).

(** ** Numbers *)

Definition Qltb (a b : Q) : bool := negb (Qle_bool b a).

(** Conversion of a number to a WebIDL [long], as done on the arguments of
    [getImageData] and [putImageData]: the fraction is dropped. *)
Definition toLong (q : Q) : Z :=
  if Qle_bool 0 q then Qfloor q else Qceiling q.

(** The remainder [a % b], which has the sign of [a]. *)
Definition jsRem (a b : Q) : Q :=
  (a - b * inject_Z (toLong (a / b)))%Q.

(** [Math.sqrt(a) < b] and [Math.sqrt(a) <= b] for [a >= 0], decided
    without computing the root. *)
Definition sqrtLt (a b : Q) : bool := Qltb 0 b && Qltb a (b * b).
Definition sqrtLe (a b : Q) : bool := Qle_bool 0 b && Qle_bool a (b * b).

(** The nearest integer, the even one of two that are equally near. *)
Definition roundHalfEven (q : Q) : Z :=
  let f := Qfloor q in
  match Qcompare (q - inject_Z f) (1 # 2) with
  | Lt => f
  | Gt => f + 1
  | Eq => if Z.even f then f else f + 1
  end.

(** Storing a number into a [Uint8ClampedArray]: nearest integer, ties to
    even, clamped to 0..255. *)
Definition toUint8Clamped (q : Q) : Z :=
  Z.max 0 (Z.min 255 (roundHalfEven q)).

(** *** Double precision

    The result of an arithmetic operation of the source is the double
    nearest to the exact result, the one with the even mantissa of two
    that are equally near.  A double has 53 bits of mantissa and no unit
    below 2^-1074; results beyond the finite doubles do not arise from
    bytes and opacities and are not modelled. *)
Module Double.
(** For [q > 0], the [e] with [2 ^ e <= q < 2 ^ (e + 1)]. *)
Definition exponent (q : Q) : Z :=
  let e := Z.log2 (Qnum q) - Z.log2 (Zpos (Qden q)) in
  if Qle_bool (Qpower 2 e) q then e else e - 1.

Definition round (q : Q) : Q :=
  if Qeq_bool q 0 then 0%Q
  else
    let ulp := Z.max (exponent (Qabs q) - 52) (-1074) in
    (inject_Z (roundHalfEven (q / Qpower 2 ulp)) * Qpower 2 ulp)%Q.

Definition add (a b : Q) : Q := round (a + b).
Definition sub (a b : Q) : Q := round (a - b).
Definition mul (a b : Q) : Q := round (a * b).
(** A division by 0 gives no finite double; the one the source can make,
    the mean over no pixel, is never used. *)
Definition div (a b : Q) : Q := round (a / b).
End Double.

(** ** Arrays *)

(** [Array.prototype.pop]: the last element and the rest. *)
Definition pop {T : Type} (l : list T) : option (T * list T) :=
  match rev l with
  | [] => None
  | x :: r => Some (x, rev r)
  end.

(** [Array.prototype.push]. *)
Definition push {T : Type} (l : list T) (x : T) : list T := l ++ [x].

(** [Array.prototype.shift], without its result. *)
Definition shift {T : Type} (l : list T) : list T := tl l.

(** [Array.prototype.splice(index, 1)], without its result. *)
Definition splice1 {T : Type} (index : Z) (l : list T) : list T :=
  let len := Z.of_nat (length l) in
  let start := if index <? 0 then Z.max (len + index) 0 else Z.min index len in
  firstn (Z.to_nat start) l ++ skipn (S (Z.to_nat start)) l.

Fixpoint mapi_from {T U : Type} (f : Z -> T -> U) (k : Z) (l : list T)
  : list U :=
  match l with
  | [] => []
  | a :: l' => f k a :: mapi_from f (k + 1) l'
  end.

(** A loop [for (i = 0; i < data.length; i += 4)] whose iteration reads and
    writes the pixel at [i] only: [k] is [i / 4]. *)
Definition mapi {T U : Type} (f : Z -> T -> U) (l : list T) : list U :=
  mapi_from f 0 l.

(** ** Compositing *)

(** Nearest integer to [n / d]. *)
Definition rdiv (n d : Z) : Z := (n + d / 2) / d.

(** The default composite operation [source-over] of a canvas, on 8-bit
    channels with straight alpha: [s] is drawn over [d]. *)
Definition over (s d : Pixel) : Pixel :=
  let a := A s * 255 + A d * (255 - A s) in
  if a <=? 0 then transparentBlack
  else mkPixel (rdiv (R s * A s * 255 + R d * A d * (255 - A s)) a)
               (rdiv (G s * A s * 255 + G d * A d * (255 - A s)) a)
               (rdiv (B s * A s * 255 + B d * A d * (255 - A s)) a)
               (rdiv a 255).

(** [ctx.drawImage(image, dx, dy)] at an integral offset, of an image
    that has pixels. *)
Definition drawImage (c : Canvas) (image : ImageData) (dx dy : Z) : Canvas :=
  raster (ImageData.width c) (ImageData.height c)
    (fun x y =>
       if inside (ImageData.width image) (ImageData.height image)
                 (x - dx) (y - dy)
       then over (pixelAt image (x - dx) (y - dy)) (pixelAt c x y)
       else pixelAt c x y).

(** [ctx.drawImage(canvas, dx, dy)] of any canvas element: an
    [InvalidStateError] when its width or its height is 0. *)
Definition drawCanvas (c : Canvas) (image : Canvas) (dx dy : Z)
  : Result Canvas :=
  if (ImageData.width image =? 0) || (ImageData.height image =? 0)
  then Throw "InvalidStateError"%string
  else Ok (drawImage c image dx dy).

(** ** The platform

    What the engine leaves to the browser and what has no exact value in
    the rationals: the square root, the anti-aliased rasterisation of
    arcs and strokes, the resampling of a scaled image, and the rounding
    of a colour that a canvas keeps premultiplied by a partial alpha. *)
Class Platform : Type := {
  (** what is read back from a canvas for a pixel written to it: the
      alpha is kept, a colour under alpha 0 is lost, a colour under alpha
      255 is kept, and what was read back is kept when written again *)
  stored : Pixel -> Pixel;
  stored_alpha : forall p, A (stored p) = A p;
  stored_clear : forall p, A p = 0 -> stored p = transparentBlack;
  stored_opaque : forall p, A p = 255 -> stored p = p;
  stored_stored : forall p, stored (stored p) = stored p;
  (** [Math.sqrt] *)
  sqrt : Q -> Q;
  (** the pixel that filling the disc of centre [(x, y)] and radius [r]
      with a colour paints at a canvas position *)
  arcPaint : Q -> Q -> Q -> string -> Z -> Z -> Pixel;
  (** the same for a round-capped stroke from [(x1, y1)] to [(x2, y2)] *)
  strokePaint : Q -> Q -> Q -> Q -> Q -> string -> Z -> Z -> Pixel;
  (** an image resampled to a width and a height *)
  resample : ImageData -> Z -> Z -> Z -> Z -> Pixel
}.

(** ** Models *)

Module Rect.
Record t : Type := mk { x : Q; y : Q; width : Q; height : Q }.
End Rect.
Abbreviation Rect := Rect.t.

Inductive CursorType : Type :=
| circle | circle_fill | crosshairs | colorpicker.

Module Cursor.
Record t : Type :=
  mk { type : CursorType; x : Q; y : Q; radius : Q; color : string }.
End Cursor.
Abbreviation Cursor := Cursor.t.

(** A registered callback, by identity. *)
Definition Listener : Type := nat.

Definition maxSnapshots : nat := 50.

(** ** The renderer

    [canvasWidth] and [canvasHeight] are [this.canvas.width] and
    [this.canvas.height]; [notified] counts the listener calls made so
    far. *)
Record Renderer : Type := mkRenderer {
  undoStack : list ImageData;
  redoStack : list ImageData;
  currentSnapshot : option ImageData;
  baseImageLayer : Canvas;
  refImageLayer : Canvas;
  editLayer : Canvas;
  overlayLayer : Canvas;
  overlayImageOpacity : Q;
  referenceImageOpacity : Q;
  selectionOverlay : option Rect;
  hasSelection : bool;
  cursor : option Cursor;
  zoom : Q;
  offsetX : Q;
  offsetY : Q;
  width : Z;
  height : Z;
  renderReferenceImages : bool;
  snapshotListeners : list Listener;
  referenceImages : list Canvas;
  canvasWidth : Z;
  canvasHeight : Z;
  notified : nat
}.

(** Field assignments [this.f = v]. *)
Definition set_undoStack (v : list ImageData) (s : Renderer) : Renderer :=
  mkRenderer v (redoStack s) (currentSnapshot s) (baseImageLayer s)
    (refImageLayer s) (editLayer s) (overlayLayer s) (overlayImageOpacity s)
    (referenceImageOpacity s) (selectionOverlay s) (hasSelection s)
    (cursor s) (zoom s) (offsetX s) (offsetY s) (width s) (height s)
    (renderReferenceImages s) (snapshotListeners s) (referenceImages s)
    (canvasWidth s) (canvasHeight s) (notified s) .
Definition set_redoStack (v : list ImageData) (s : Renderer) : Renderer :=
  mkRenderer (undoStack s) v (currentSnapshot s) (baseImageLayer s)
    (refImageLayer s) (editLayer s) (overlayLayer s) (overlayImageOpacity s)
    (referenceImageOpacity s) (selectionOverlay s) (hasSelection s)
    (cursor s) (zoom s) (offsetX s) (offsetY s) (width s) (height s)
    (renderReferenceImages s) (snapshotListeners s) (referenceImages s)
    (canvasWidth s) (canvasHeight s) (notified s) .
Definition set_currentSnapshot (v : option ImageData) (s : Renderer) : Renderer :=
  mkRenderer (undoStack s) (redoStack s) v (baseImageLayer s)
    (refImageLayer s) (editLayer s) (overlayLayer s) (overlayImageOpacity s)
    (referenceImageOpacity s) (selectionOverlay s) (hasSelection s)
    (cursor s) (zoom s) (offsetX s) (offsetY s) (width s) (height s)
    (renderReferenceImages s) (snapshotListeners s) (referenceImages s)
    (canvasWidth s) (canvasHeight s) (notified s) .
Definition set_baseImageLayer (v : Canvas) (s : Renderer) : Renderer :=
  mkRenderer (undoStack s) (redoStack s) (currentSnapshot s) v
    (refImageLayer s) (editLayer s) (overlayLayer s) (overlayImageOpacity s)
    (referenceImageOpacity s) (selectionOverlay s) (hasSelection s)
    (cursor s) (zoom s) (offsetX s) (offsetY s) (width s) (height s)
    (renderReferenceImages s) (snapshotListeners s) (referenceImages s)
    (canvasWidth s) (canvasHeight s) (notified s) .
Definition set_refImageLayer (v : Canvas) (s : Renderer) : Renderer :=
  mkRenderer (undoStack s) (redoStack s) (currentSnapshot s)
    (baseImageLayer s) v (editLayer s) (overlayLayer s)
    (overlayImageOpacity s) (referenceImageOpacity s) (selectionOverlay s)
    (hasSelection s) (cursor s) (zoom s) (offsetX s) (offsetY s) (width s)
    (height s) (renderReferenceImages s) (snapshotListeners s)
    (referenceImages s) (canvasWidth s) (canvasHeight s) (notified s) .
Definition set_editLayer (v : Canvas) (s : Renderer) : Renderer :=
  mkRenderer (undoStack s) (redoStack s) (currentSnapshot s)
    (baseImageLayer s) (refImageLayer s) v (overlayLayer s)
    (overlayImageOpacity s) (referenceImageOpacity s) (selectionOverlay s)
    (hasSelection s) (cursor s) (zoom s) (offsetX s) (offsetY s) (width s)
    (height s) (renderReferenceImages s) (snapshotListeners s)
    (referenceImages s) (canvasWidth s) (canvasHeight s) (notified s) .
Definition set_overlayLayer (v : Canvas) (s : Renderer) : Renderer :=
  mkRenderer (undoStack s) (redoStack s) (currentSnapshot s)
    (baseImageLayer s) (refImageLayer s) (editLayer s) v
    (overlayImageOpacity s) (referenceImageOpacity s) (selectionOverlay s)
    (hasSelection s) (cursor s) (zoom s) (offsetX s) (offsetY s) (width s)
    (height s) (renderReferenceImages s) (snapshotListeners s)
    (referenceImages s) (canvasWidth s) (canvasHeight s) (notified s) .
Definition set_overlayImageOpacity (v : Q) (s : Renderer) : Renderer :=
  mkRenderer (undoStack s) (redoStack s) (currentSnapshot s)
    (baseImageLayer s) (refImageLayer s) (editLayer s) (overlayLayer s) v
    (referenceImageOpacity s) (selectionOverlay s) (hasSelection s)
    (cursor s) (zoom s) (offsetX s) (offsetY s) (width s) (height s)
    (renderReferenceImages s) (snapshotListeners s) (referenceImages s)
    (canvasWidth s) (canvasHeight s) (notified s) .
Definition set_referenceImageOpacity (v : Q) (s : Renderer) : Renderer :=
  mkRenderer (undoStack s) (redoStack s) (currentSnapshot s)
    (baseImageLayer s) (refImageLayer s) (editLayer s) (overlayLayer s)
    (overlayImageOpacity s) v (selectionOverlay s) (hasSelection s)
    (cursor s) (zoom s) (offsetX s) (offsetY s) (width s) (height s)
    (renderReferenceImages s) (snapshotListeners s) (referenceImages s)
    (canvasWidth s) (canvasHeight s) (notified s) .
Definition set_selectionOverlay (v : option Rect) (s : Renderer) : Renderer :=
  mkRenderer (undoStack s) (redoStack s) (currentSnapshot s)
    (baseImageLayer s) (refImageLayer s) (editLayer s) (overlayLayer s)
    (overlayImageOpacity s) (referenceImageOpacity s) v (hasSelection s)
    (cursor s) (zoom s) (offsetX s) (offsetY s) (width s) (height s)
    (renderReferenceImages s) (snapshotListeners s) (referenceImages s)
    (canvasWidth s) (canvasHeight s) (notified s) .
Definition set_hasSelection (v : bool) (s : Renderer) : Renderer :=
  mkRenderer (undoStack s) (redoStack s) (currentSnapshot s)
    (baseImageLayer s) (refImageLayer s) (editLayer s) (overlayLayer s)
    (overlayImageOpacity s) (referenceImageOpacity s) (selectionOverlay s) v
    (cursor s) (zoom s) (offsetX s) (offsetY s) (width s) (height s)
    (renderReferenceImages s) (snapshotListeners s) (referenceImages s)
    (canvasWidth s) (canvasHeight s) (notified s) .
Definition set_cursor (v : option Cursor) (s : Renderer) : Renderer :=
  mkRenderer (undoStack s) (redoStack s) (currentSnapshot s)
    (baseImageLayer s) (refImageLayer s) (editLayer s) (overlayLayer s)
    (overlayImageOpacity s) (referenceImageOpacity s) (selectionOverlay s)
    (hasSelection s) v (zoom s) (offsetX s) (offsetY s) (width s) (height s)
    (renderReferenceImages s) (snapshotListeners s) (referenceImages s)
    (canvasWidth s) (canvasHeight s) (notified s) .
Definition set_zoom (v : Q) (s : Renderer) : Renderer :=
  mkRenderer (undoStack s) (redoStack s) (currentSnapshot s)
    (baseImageLayer s) (refImageLayer s) (editLayer s) (overlayLayer s)
    (overlayImageOpacity s) (referenceImageOpacity s) (selectionOverlay s)
    (hasSelection s) (cursor s) v (offsetX s) (offsetY s) (width s)
    (height s) (renderReferenceImages s) (snapshotListeners s)
    (referenceImages s) (canvasWidth s) (canvasHeight s) (notified s) .
Definition set_offsetX (v : Q) (s : Renderer) : Renderer :=
  mkRenderer (undoStack s) (redoStack s) (currentSnapshot s)
    (baseImageLayer s) (refImageLayer s) (editLayer s) (overlayLayer s)
    (overlayImageOpacity s) (referenceImageOpacity s) (selectionOverlay s)
    (hasSelection s) (cursor s) (zoom s) v (offsetY s) (width s) (height s)
    (renderReferenceImages s) (snapshotListeners s) (referenceImages s)
    (canvasWidth s) (canvasHeight s) (notified s) .
Definition set_offsetY (v : Q) (s : Renderer) : Renderer :=
  mkRenderer (undoStack s) (redoStack s) (currentSnapshot s)
    (baseImageLayer s) (refImageLayer s) (editLayer s) (overlayLayer s)
    (overlayImageOpacity s) (referenceImageOpacity s) (selectionOverlay s)
    (hasSelection s) (cursor s) (zoom s) (offsetX s) v (width s) (height s)
    (renderReferenceImages s) (snapshotListeners s) (referenceImages s)
    (canvasWidth s) (canvasHeight s) (notified s) .
Definition set_width (v : Z) (s : Renderer) : Renderer :=
  mkRenderer (undoStack s) (redoStack s) (currentSnapshot s)
    (baseImageLayer s) (refImageLayer s) (editLayer s) (overlayLayer s)
    (overlayImageOpacity s) (referenceImageOpacity s) (selectionOverlay s)
    (hasSelection s) (cursor s) (zoom s) (offsetX s) (offsetY s) v (height s)
    (renderReferenceImages s) (snapshotListeners s) (referenceImages s)
    (canvasWidth s) (canvasHeight s) (notified s) .
Definition set_height (v : Z) (s : Renderer) : Renderer :=
  mkRenderer (undoStack s) (redoStack s) (currentSnapshot s)
    (baseImageLayer s) (refImageLayer s) (editLayer s) (overlayLayer s)
    (overlayImageOpacity s) (referenceImageOpacity s) (selectionOverlay s)
    (hasSelection s) (cursor s) (zoom s) (offsetX s) (offsetY s) (width s) v
    (renderReferenceImages s) (snapshotListeners s) (referenceImages s)
    (canvasWidth s) (canvasHeight s) (notified s) .
Definition set_renderReferenceImages (v : bool) (s : Renderer) : Renderer :=
  mkRenderer (undoStack s) (redoStack s) (currentSnapshot s)
    (baseImageLayer s) (refImageLayer s) (editLayer s) (overlayLayer s)
    (overlayImageOpacity s) (referenceImageOpacity s) (selectionOverlay s)
    (hasSelection s) (cursor s) (zoom s) (offsetX s) (offsetY s) (width s)
    (height s) v (snapshotListeners s) (referenceImages s) (canvasWidth s)
    (canvasHeight s) (notified s) .
Definition set_snapshotListeners (v : list Listener) (s : Renderer) : Renderer :=
  mkRenderer (undoStack s) (redoStack s) (currentSnapshot s)
    (baseImageLayer s) (refImageLayer s) (editLayer s) (overlayLayer s)
    (overlayImageOpacity s) (referenceImageOpacity s) (selectionOverlay s)
    (hasSelection s) (cursor s) (zoom s) (offsetX s) (offsetY s) (width s)
    (height s) (renderReferenceImages s) v (referenceImages s)
    (canvasWidth s) (canvasHeight s) (notified s) .
Definition set_referenceImages (v : list Canvas) (s : Renderer) : Renderer :=
  mkRenderer (undoStack s) (redoStack s) (currentSnapshot s)
    (baseImageLayer s) (refImageLayer s) (editLayer s) (overlayLayer s)
    (overlayImageOpacity s) (referenceImageOpacity s) (selectionOverlay s)
    (hasSelection s) (cursor s) (zoom s) (offsetX s) (offsetY s) (width s)
    (height s) (renderReferenceImages s) (snapshotListeners s) v
    (canvasWidth s) (canvasHeight s) (notified s) .
Definition set_canvasWidth (v : Z) (s : Renderer) : Renderer :=
  mkRenderer (undoStack s) (redoStack s) (currentSnapshot s)
    (baseImageLayer s) (refImageLayer s) (editLayer s) (overlayLayer s)
    (overlayImageOpacity s) (referenceImageOpacity s) (selectionOverlay s)
    (hasSelection s) (cursor s) (zoom s) (offsetX s) (offsetY s) (width s)
    (height s) (renderReferenceImages s) (snapshotListeners s)
    (referenceImages s) v (canvasHeight s) (notified s) .
Definition set_canvasHeight (v : Z) (s : Renderer) : Renderer :=
  mkRenderer (undoStack s) (redoStack s) (currentSnapshot s)
    (baseImageLayer s) (refImageLayer s) (editLayer s) (overlayLayer s)
    (overlayImageOpacity s) (referenceImageOpacity s) (selectionOverlay s)
    (hasSelection s) (cursor s) (zoom s) (offsetX s) (offsetY s) (width s)
    (height s) (renderReferenceImages s) (snapshotListeners s)
    (referenceImages s) (canvasWidth s) v (notified s) .
Definition set_notified (v : nat) (s : Renderer) : Renderer :=
  mkRenderer (undoStack s) (redoStack s) (currentSnapshot s)
    (baseImageLayer s) (refImageLayer s) (editLayer s) (overlayLayer s)
    (overlayImageOpacity s) (referenceImageOpacity s) (selectionOverlay s)
    (hasSelection s) (cursor s) (zoom s) (offsetX s) (offsetY s) (width s)
    (height s) (renderReferenceImages s) (snapshotListeners s)
    (referenceImages s) (canvasWidth s) (canvasHeight s) v.

(** [new Renderer(canvas)] for an output canvas of the given size; a
    created canvas element is 300 x 150. *)
Definition newRenderer (canvasW canvasH : Z) : Renderer :=
  {| undoStack := [];
     redoStack := [];
     currentSnapshot := None;
     baseImageLayer := blankCanvas 300 150;
     refImageLayer := blankCanvas 300 150;
     editLayer := blankCanvas 300 150;
     overlayLayer := blankCanvas 300 150;
     overlayImageOpacity := 1;
     referenceImageOpacity := 3 # 10;
     selectionOverlay := None;
     hasSelection := false;
     cursor := None;
     zoom := 1;
     offsetX := 0;
     offsetY := 0;
     width := 0;
     height := 0;
     renderReferenceImages := true;
     snapshotListeners := [];
     referenceImages := [];
     canvasWidth := canvasW;
     canvasHeight := canvasH;
     notified := 0 |}.

(** [render()] redraws the output canvas from the layers; none of the
    tracked fields changes. *)
Definition render (s : Renderer) : Renderer := s.

Definition notifySnapshotListeners (s : Renderer) : Renderer :=
  set_notified (notified s + length (snapshotListeners s))%nat s.

(** *** History *)

Definition undo (allowRedo : bool) (s : Renderer) : Renderer :=
  match pop (undoStack s), currentSnapshot s with
  | Some (imageData, rest), Some current =>
      let s := set_undoStack rest s in
      let s := if allowRedo
               then set_redoStack (push (redoStack s) current) s
               else s in
      let s := set_currentSnapshot (Some imageData) s in
      let s := match getContext (baseImageLayer s) with
               | Some ctx =>
                   let ctx := clearRect ctx in
                   let ctx := putImageData ctx imageData 0 0 in
                   render (set_baseImageLayer ctx s)
               | None => s
               end in
      notifySnapshotListeners s
  | _, _ => s
  end.

Definition redo (s : Renderer) : Renderer :=
  match pop (redoStack s), currentSnapshot s with
  | Some (imageData, rest), Some current =>
      let s := set_undoStack (push (undoStack s) current) s in
      let s := set_redoStack rest s in
      let s := set_currentSnapshot (Some imageData) s in
      let s := match getContext (baseImageLayer s) with
               | Some ctx =>
                   let ctx := putImageData ctx imageData 0 0 in
                   render (set_baseImageLayer ctx s)
               | None => s
               end in
      notifySnapshotListeners s
  | _, _ => s
  end.

Definition clearRedoStack (s : Renderer) : Renderer :=
  notifySnapshotListeners (set_redoStack [] s).

Definition canUndo (s : Renderer) : bool :=
  negb (hasSelection s) && (0 <? length (undoStack s))%nat.

Definition canRedo (s : Renderer) : bool :=
  negb (hasSelection s) && (0 <? length (redoStack s))%nat.

Definition addSnapshotListener (listener : Listener) (s : Renderer)
  : Renderer :=
  set_snapshotListeners (push (snapshotListeners s) listener) s.

Definition removeSnapshotListener (listener : Listener) (s : Renderer)
  : Renderer :=
  set_snapshotListeners
    (filter (fun l => negb (Nat.eqb l listener)) (snapshotListeners s)) s.

(** The base layer, all of which [getImageData] reads here, is taken to
    have pixels. *)
Definition snapshot (s : Renderer) : Renderer :=
  match getContext (baseImageLayer s) with
  | Some ctx =>
      let snapshot :=
        region ctx 0 0 (ImageData.width (baseImageLayer s))
               (ImageData.height (baseImageLayer s)) in
      let s :=
        match currentSnapshot s with
        | Some current =>
            let s := set_undoStack (push (undoStack s) current) s in
            let s := set_currentSnapshot (Some snapshot) s in
            let s := if (0 <? length (redoStack s))%nat
                     then set_redoStack [] s else s in
            if (maxSnapshots <? length (undoStack s))%nat
            then set_undoStack (shift (undoStack s)) s else s
        | None => set_currentSnapshot (Some snapshot) s
        end in
      notifySnapshotListeners s
  | None => s
  end.

(** *** View, selection and cursor *)

Definition updateZoomAndOffset (zoom' offsetX' offsetY' : Q) (s : Renderer)
  : Renderer :=
  render (set_offsetY offsetY' (set_offsetX offsetX' (set_zoom zoom' s))).

Definition resetView (s : Renderer) : Renderer :=
  let imageAspectRatio := (inject_Z (width s) / inject_Z (height s))%Q in
  let canvasAspectRatio :=
    (inject_Z (canvasWidth s) / inject_Z (canvasHeight s))%Q in
  if Qltb canvasAspectRatio imageAspectRatio then
    let zoom := (inject_Z (canvasWidth s) / inject_Z (width s))%Q in
    let offsetX := 0%Q in
    let offsetY :=
      ((inject_Z (height s) - inject_Z (canvasHeight s) / zoom) / -(2))%Q in
    updateZoomAndOffset zoom offsetX offsetY s
  else
    let zoom := (inject_Z (canvasHeight s) / inject_Z (height s))%Q in
    let offsetY := 0%Q in
    let offsetX :=
      ((inject_Z (width s) - inject_Z (canvasWidth s) / zoom) / -(2))%Q in
    updateZoomAndOffset zoom offsetX offsetY s.

Definition setSelectionOverlay (selectionOverlay' : option Rect)
  (s : Renderer) : Renderer :=
  render (set_selectionOverlay selectionOverlay' s).

Definition setCursor (cursor' : option Cursor) (s : Renderer) : Renderer :=
  render (set_cursor cursor' s).

Definition set_overlayOpacity (opacity : Q) (s : Renderer) : Renderer :=
  render (set_overlayImageOpacity opacity s).

Definition set_referenceOpacity (opacity : Q) (s : Renderer) : Renderer :=
  render (set_referenceImageOpacity opacity s).

Definition set_renderReference (b : bool) (s : Renderer) : Renderer :=
  render (set_renderReferenceImages b s).

(** The sizes have already been converted to the integers a canvas
    keeps. *)
Definition updateCanvasSize (w h : Z) (s : Renderer) : Renderer :=
  render (set_canvasHeight h (set_canvasWidth w s)).

(** *** Layers *)

(** The background pattern, redrawn first in the source, is not tracked.
    The four layers are resized, which clears them. *)
Definition setBaseImage (image : ImageData) (updateSelectionOverlay : bool)
  (s : Renderer) : Renderer :=
  match getContext (baseImageLayer s) with
  | Some _ =>
      let w := ImageData.width image in
      let h := ImageData.height image in
      let s := set_baseImageLayer (blankCanvas w h) s in
      let s := set_refImageLayer (blankCanvas w h) s in
      let s := set_editLayer (blankCanvas w h) s in
      let s := set_overlayLayer (blankCanvas w h) s in
      let s := set_width w s in
      let s := set_height h s in
      let s := set_baseImageLayer (drawImage (baseImageLayer s) image 0 0) s in
      let s :=
        if updateSelectionOverlay
        then setSelectionOverlay
               (Some {| Rect.x := (inject_Z w - 1024) / 2;
                        Rect.y := (inject_Z h - 1024) / 2;
                        Rect.width := 1024;
                        Rect.height := 1024 |}) s
        else s in
      let s := resetView s in
      snapshot s
  | None => s
  end.

(** The image data, which the callers have read from a canvas, are
    written as they are. *)
Definition setEditImage (imageData : option ImageData) (s : Renderer)
  : Renderer :=
  let truthy := match imageData with Some _ => true | None => false end in
  let s := set_hasSelection truthy s in
  let s :=
    match getContext (editLayer s), selectionOverlay s with
    | Some context, Some sel =>
        let context := clearRect context in
        let context :=
          match imageData with
          | Some img =>
              putImageData context img (toLong (Rect.x sel))
                           (toLong (Rect.y sel))
          | None => context
          end in
        render (set_hasSelection truthy (set_editLayer context s))
    | _, _ => s
    end in
  notifySnapshotListeners s.

Definition commitSelection (s : Renderer) : Renderer :=
  match getContext (baseImageLayer s) with
  | Some context =>
      let tempCanvas :=
        blankCanvas (ImageData.width (baseImageLayer s))
                    (ImageData.height (baseImageLayer s)) in
      let s :=
        match getContext tempCanvas with
        | Some tempContext =>
            let tempContext := drawImage tempContext (baseImageLayer s) 0 0 in
            let tempContext := drawImage tempContext (editLayer s) 0 0 in
            set_baseImageLayer (drawImage context tempContext 0 0) s
        | None => s
        end in
      let s := setEditImage None s in
      snapshot s
  | None => s
  end.

Definition copyEditImageFromBaseImage (s : Renderer) : Renderer :=
  let s := match getContext (editLayer s) with
           | Some context =>
               set_editLayer (drawImage context (baseImageLayer s) 0 0) s
           | None => s
           end in
  let s := render s in
  let s := set_hasSelection true s in
  notifySnapshotListeners s.

(** *** Mask conversions

    Both overwrite the pixels of their argument and return it; the value
    here is that content. *)

Definition convertMaskToErasure (erasure : ImageData) : ImageData :=
  ImageData.mk (ImageData.width erasure) (ImageData.height erasure)
    (map (fun p =>
            let white := R p =? 255 in
            if white then mkPixel 255 255 255 0 else mkPixel 0 0 0 255)
         (ImageData.data erasure)).

Definition convertErasureToMask (mask : ImageData) : ImageData :=
  ImageData.mk (ImageData.width mask) (ImageData.height mask)
    (map (fun p =>
            let white := A p <? 255 in
            if white then mkPixel 255 255 255 255 else mkPixel 0 0 0 255)
         (ImageData.data mask)).

(** *** Erasing *)

Definition setAlpha (a : Z) (p : Pixel) : Pixel :=
  mkPixel (R p) (G p) (B p) a.

(** The four bounds computed in the loop of [erasePoint]. *)
Definition leftEdge (sel : Rect) : Q :=
  let leftEdge := Rect.x sel in
  if Qltb 0 leftEdge then (leftEdge + 10)%Q else leftEdge.

Definition rightEdge (sel : Rect) (s : Renderer) : Q :=
  let rightEdge := (Rect.x sel + Rect.width sel)%Q in
  if Qltb rightEdge (inject_Z (width s)) then (rightEdge - 10)%Q
  else rightEdge.

Definition topEdge (sel : Rect) : Q :=
  let topEdge := Rect.y sel in
  if Qltb 0 topEdge then (topEdge + 10)%Q else topEdge.

Definition bottomEdge (sel : Rect) (s : Renderer) : Q :=
  let bottomEdge := (Rect.y sel + Rect.height sel)%Q in
  if Qltb bottomEdge (inject_Z (canvasHeight s)) then (bottomEdge - 10)%Q
  else bottomEdge.

(** The body of the loop of [erasePoint] at [i = 4 * k]. *)
Definition eraseAt (sel : Rect) (s : Renderer) (brushx brushy brushSize : Q)
  (k : Z) (p : Pixel) : Pixel :=
  let x := jsRem (inject_Z k) brushSize in
  let y := inject_Z (Qfloor (inject_Z k / brushSize)) in
  let absx := (x - brushSize / 2 + brushx)%Q in
  let containsx :=
    Qltb (leftEdge sel) absx && Qltb absx (rightEdge sel s) in
  let absy := (y - brushSize / 2 + brushy)%Q in
  let containsy :=
    Qltb (topEdge sel) absy && Qltb absy (bottomEdge sel s) in
  let contains := containsx && containsy in
  if negb contains then p
  else
    if sqrtLt ((x - brushSize / 2) ^ 2 + (y - brushSize / 2) ^ 2)
              (brushSize / 2)
    then setAlpha 0 p
    else p.

(** *** Smudging *)

(** [distance <= brushSize / 2] for the pixel at column [x], row [y] of
    the window. *)
Definition inBrush (brushSize : Q) (x y : Z) : bool :=
  sqrtLe ((inject_Z x - brushSize / 2) * (inject_Z x - brushSize / 2)
          + (inject_Z y - brushSize / 2) * (inject_Z y - brushSize / 2))
         (brushSize / 2).

Record Totals : Type :=
  mkTotals { totalRed : Q; totalGreen : Q; totalBlue : Q; count : Q }.

(** The first pair of loops: the pixels are met in the order of their
    index [y * width + x]. *)
Definition accumulate (brushSize : Q) (imageData : ImageData) : Totals :=
  fold_left
    (fun t k =>
       let x := k mod ImageData.width imageData in
       let y := k / ImageData.width imageData in
       if inBrush brushSize x y then
         let p := pixelAt imageData x y in
         mkTotals (totalRed t + inject_Z (R p)) (totalGreen t + inject_Z (G p))
                  (totalBlue t + inject_Z (B p)) (count t + 1)
       else t)
    (range 0 (area (ImageData.width imageData) (ImageData.height imageData)))
    (mkTotals 0 0 0 0).

(** [average * brushOpacity + original * (1 - brushOpacity)], the
    operations in the order the source makes them, stored in a byte. *)
Definition blend (average brushOpacity : Q) (original : Z) : Z :=
  toUint8Clamped
    (Double.add (Double.mul average brushOpacity)
                (Double.mul (inject_Z original) (Double.sub 1 brushOpacity))).

(** The values of [i] for which the loop [for (i = 0; i < length; i++)]
    runs its body. *)
Definition steps (length : Q) : list Z :=
  range 0 (Z.to_nat (Qceiling length)).

Section Engine.
Context {platform : Platform}.

(** Image data as the canvas keeps them once written. *)
Definition asStored (imageData : ImageData) : ImageData :=
  ImageData.mk (ImageData.width imageData) (ImageData.height imageData)
    (map stored (ImageData.data imageData)).

(** The bitmap holds every pixel as the canvas gives it back. *)
Definition held (c : Canvas) : Prop :=
  Forall (fun p => stored p = p) (ImageData.data c).

Definition heldb (c : Canvas) : bool :=
  forallb (fun p => Pixel_eqb (stored p) p) (ImageData.data c).

Definition erasePoint (brushx brushy brushSize : Q) (s : Renderer)
  : Result Renderer :=
  match selectionOverlay s with
  | None => Throw "No selection overlay"%string
  | Some sel =>
      match getContext (baseImageLayer s) with
      | Some context =>
          let sx := toLong (brushx - brushSize / 2) in
          let sy := toLong (brushy - brushSize / 2) in
          let* imageData :=
            getImageData context sx sy (toLong brushSize) (toLong brushSize) in
          let imageData :=
            ImageData.mk (ImageData.width imageData)
              (ImageData.height imageData)
              (mapi (eraseAt sel s brushx brushy brushSize)
                    (ImageData.data imageData)) in
          Ok (set_baseImageLayer
                (putImageData context (asStored imageData) sx sy) s)
      | None => Ok s
      end
  end.

(** One iteration of the loop over the line, at the point [(x, y)].  The
    totals are sums of bytes, which are exact. *)
Definition smudgeAt (brushSize brushOpacity : Q) (context : Canvas) (x y : Q)
  : Result Canvas :=
  let sx := toLong (x - brushSize / 2) in
  let sy := toLong (y - brushSize / 2) in
  let* imageData :=
    getImageData context sx sy (toLong brushSize) (toLong brushSize) in
  let t := accumulate brushSize imageData in
  let averageRed := Double.div (totalRed t) (count t) in
  let averageGreen := Double.div (totalGreen t) (count t) in
  let averageBlue := Double.div (totalBlue t) (count t) in
  let imageData :=
    raster (ImageData.width imageData) (ImageData.height imageData)
      (fun x y =>
         let p := pixelAt imageData x y in
         if inBrush brushSize x y then
           mkPixel (blend averageRed brushOpacity (R p))
                   (blend averageGreen brushOpacity (G p))
                   (blend averageBlue brushOpacity (B p))
                   (A p)
         else p) in
  Ok (putImageData context (asStored imageData) sx sy).

(** The loop stops at the first iteration that throws.  The opacity,
    which enters the double-precision arithmetic, is the argument as a
    double: the double nearest to the rational that stands for it. *)
Definition smudgeLine (x1 y1 x2 y2 brushSize brushOpacity : Q)
  (s : Renderer) : Result Renderer :=
  let brushOpacity := Double.round brushOpacity in
  let ux := (x2 - x1)%Q in
  let uy := (y2 - y1)%Q in
  let length := sqrt (ux * ux + uy * uy) in
  let ux := (ux / length)%Q in
  let uy := (uy / length)%Q in
  let* s :=
    match getContext (editLayer s) with
    | Some context =>
        let* context :=
          fold_left
            (fun context i =>
               let* context := context in
               let x := (x1 + inject_Z i * ux)%Q in
               let y := (y1 + inject_Z i * uy)%Q in
               smudgeAt brushSize brushOpacity context x y)
            (steps length) (Ok context) in
        Ok (set_editLayer context s)
    | None => Ok s
    end in
  Ok (render s).

(** *** Drawing *)

Definition drawPoint (x y brushSize : Q) (color : string) (s : Renderer)
  : Renderer :=
  let s :=
    match getContext (editLayer s) with
    | Some context =>
        set_editLayer
          (raster (ImageData.width context) (ImageData.height context)
             (fun px py =>
                over (arcPaint x y (brushSize / 2) color px py)
                     (pixelAt context px py))) s
    | None => s
    end in
  render s.

Definition drawLine (x1 y1 x2 y2 brushSize : Q) (color : string)
  (s : Renderer) : Renderer :=
  let s :=
    match getContext (editLayer s) with
    | Some context =>
        set_editLayer
          (raster (ImageData.width context) (ImageData.height context)
             (fun px py =>
                over (strokePaint x1 y1 x2 y2 brushSize color px py)
                     (pixelAt context px py))) s
    | None => s
    end in
  render s.

(** [ctx.drawImage(image, 0, 0, canvas.width, canvas.height)] after
    [clearRect]. *)
Definition drawScaled (c : Canvas) (image : ImageData) : Canvas :=
  let c := clearRect c in
  raster (ImageData.width c) (ImageData.height c)
    (fun x y =>
       over (resample image (ImageData.width c) (ImageData.height c) x y)
            (pixelAt c x y)).

Definition setReferenceImage (image : ImageData) (s : Renderer) : Renderer :=
  match getContext (refImageLayer s) with
  | Some context => render (set_refImageLayer (drawScaled context image) s)
  | None => s
  end.

Definition setOverlayImage (image : ImageData) (s : Renderer) : Renderer :=
  match getContext (overlayLayer s) with
  | Some context => render (set_overlayLayer (drawScaled context image) s)
  | None => s
  end.
End Engine.

Definition clearReferenceImage (s : Renderer) : Renderer :=
  match getContext (refImageLayer s) with
  | Some context => render (set_refImageLayer (clearRect context) s)
  | None => s
  end.

Definition clearOverlayImage (s : Renderer) : Renderer :=
  match getContext (overlayLayer s) with
  | Some context => render (set_overlayLayer (clearRect context) s)
  | None => s
  end.

Definition addReferenceImage (image : ImageData) (s : Renderer) : Renderer :=
  let canvas :=
    blankCanvas (ImageData.width image) (ImageData.height image) in
  match getContext canvas with
  | Some context =>
      render (set_referenceImages
                (push (referenceImages s) (drawImage context image 0 0)) s)
  | None => s
  end.

Definition removeReferenceImage (index : Z) (s : Renderer) : Renderer :=
  render (set_referenceImages (splice1 index (referenceImages s)) s).

(** *** Growing the image to the selection *)

(** A number assigned to [canvas.width] or [canvas.height]. *)
Definition toDimension (q : Q) : Z := Z.max 0 (toLong q).

(** The offsets of the drawn base image are integral whenever the
    selection origin is; otherwise their fraction is dropped here. *)
Definition expandToOverlay (s : Renderer) : Result Renderer :=
  match selectionOverlay s with
  | None => Throw "No selection overlay"%string
  | Some sel =>
      let minX := Qmin 0 (Rect.x sel) in
      let minY := Qmin 0 (Rect.y sel) in
      let maxX := Qmax (Rect.x sel + Rect.width sel)
                       (inject_Z (ImageData.width (baseImageLayer s))) in
      let maxY := Qmax (Rect.y sel + Rect.height sel)
                       (inject_Z (ImageData.height (baseImageLayer s))) in
      let width := (maxX - minX)%Q in
      let height := (maxY - minY)%Q in
      let newCanvas := blankCanvas (toDimension width) (toDimension height) in
      let* newCanvas :=
        match getContext newCanvas with
        | Some context =>
            drawCanvas context (baseImageLayer s)
                       (toLong (Qmax 0 (Rect.x sel * -(1))))
                       (toLong (Qmax 0 (Rect.y sel * -(1))))
        | None => Ok newCanvas
        end in
      let sel :=
        if Qltb (Rect.x sel) 0
        then Rect.mk 0 (Rect.y sel) (Rect.width sel) (Rect.height sel)
        else sel in
      let sel :=
        if Qltb (Rect.y sel) 0
        then Rect.mk (Rect.x sel) 0 (Rect.width sel) (Rect.height sel)
        else sel in
      let s := set_selectionOverlay (Some sel) s in
      Ok (setBaseImage newCanvas false s)
  end.

(** ** Calls and reachable states *)

Section Calls.
Context {platform : Platform}.

(** The public methods that change the renderer. *)
Inductive Call : Type :=
| call_undo (allowRedo : bool)
| call_redo
| call_clearRedoStack
| call_snapshot
| call_addSnapshotListener (listener : Listener)
| call_removeSnapshotListener (listener : Listener)
| call_render
| call_updateCanvasSize (w h : Z)
| call_setOverlayImageOpacity (opacity : Q)
| call_setReferenceImageOpacity (opacity : Q)
| call_setRenderReferenceImages (b : bool)
| call_addReferenceImage (image : ImageData)
| call_removeReferenceImage (index : Z)
| call_setReferenceImage (image : ImageData)
| call_clearReferenceImage
| call_setOverlayImage (image : ImageData)
| call_clearOverlayImage
| call_setBaseImage (image : ImageData) (updateSelectionOverlay : bool)
| call_resetView
| call_setEditImage (imageData : option ImageData)
| call_setSelectionOverlay (selectionOverlay : option Rect)
| call_setCursor (cursor : option Cursor)
| call_updateZoomAndOffset (zoom offsetX offsetY : Q)
| call_commitSelection
| call_drawPoint (x y brushSize : Q) (color : string)
| call_erasePoint (brushx brushy brushSize : Q)
| call_drawLine (x1 y1 x2 y2 brushSize : Q) (color : string)
| call_smudgeLine (x1 y1 x2 y2 brushSize brushOpacity : Q)
| call_copyEditImageFromBaseImage
| call_expandToOverlay.

Definition perform (c : Call) (s : Renderer) : Result Renderer :=
  match c with
  | call_undo allowRedo => Ok (undo allowRedo s)
  | call_redo => Ok (redo s)
  | call_clearRedoStack => Ok (clearRedoStack s)
  | call_snapshot => Ok (snapshot s)
  | call_addSnapshotListener l => Ok (addSnapshotListener l s)
  | call_removeSnapshotListener l => Ok (removeSnapshotListener l s)
  | call_render => Ok (render s)
  | call_updateCanvasSize w h => Ok (updateCanvasSize w h s)
  | call_setOverlayImageOpacity o => Ok (set_overlayOpacity o s)
  | call_setReferenceImageOpacity o => Ok (set_referenceOpacity o s)
  | call_setRenderReferenceImages b => Ok (set_renderReference b s)
  | call_addReferenceImage image => Ok (addReferenceImage image s)
  | call_removeReferenceImage index => Ok (removeReferenceImage index s)
  | call_setReferenceImage image => Ok (setReferenceImage image s)
  | call_clearReferenceImage => Ok (clearReferenceImage s)
  | call_setOverlayImage image => Ok (setOverlayImage image s)
  | call_clearOverlayImage => Ok (clearOverlayImage s)
  | call_setBaseImage image b => Ok (setBaseImage image b s)
  | call_resetView => Ok (resetView s)
  | call_setEditImage imageData => Ok (setEditImage imageData s)
  | call_setSelectionOverlay sel => Ok (setSelectionOverlay sel s)
  | call_setCursor c => Ok (setCursor c s)
  | call_updateZoomAndOffset z ox oy => Ok (updateZoomAndOffset z ox oy s)
  | call_commitSelection => Ok (commitSelection s)
  | call_drawPoint x y b c => Ok (drawPoint x y b c s)
  | call_erasePoint x y b => erasePoint x y b s
  | call_drawLine x1 y1 x2 y2 b c => Ok (drawLine x1 y1 x2 y2 b c s)
  | call_smudgeLine x1 y1 x2 y2 b o => smudgeLine x1 y1 x2 y2 b o s
  | call_copyEditImageFromBaseImage => Ok (copyEditImageFromBaseImage s)
  | call_expandToOverlay => expandToOverlay s
  end.

(** The renderer once a call has returned or thrown: the three methods
    that throw do so before they change anything. *)
Definition after (c : Call) (s : Renderer) : Renderer :=
  match perform c s with
  | Ok s' => s'
  | Throw _ => s
  end.

Inductive reachable : Renderer -> Prop :=
| reachable_new (canvasW canvasH : Z) :
    reachable (newRenderer canvasW canvasH)
| reachable_call (c : Call) (s : Renderer) :
    reachable s -> reachable (after c s).
End Calls.

(** ** Statements used by the theorems *)

(** A rectangle lies within an image of the given size. *)
Definition within (sel : Rect) (w h : Z) : Prop :=
  (0 <= Rect.x sel /\ 0 <= Rect.y sel /\
   Rect.x sel + Rect.width sel <= inject_Z w /\
   Rect.y sel + Rect.height sel <= inject_Z h)%Q.

(** Two renderers with the same history. *)
Definition sameHistory (a b : Renderer) : Prop :=
  undoStack a = undoStack b /\ redoStack a = redoStack b /\
  currentSnapshot a = currentSnapshot b.

(** The states that [n] calls of [snapshot()] lead to from a new renderer,
    with anything that leaves the history alone in between. *)
Inductive snapshots : nat -> Renderer -> Prop :=
| snapshots_new (canvasW canvasH : Z) :
    snapshots 0 (newRenderer canvasW canvasH)
| snapshots_next (n : nat) (s s' : Renderer) :
    snapshots n s -> sameHistory s s' -> wf (baseImageLayer s') ->
    snapshots (S n) (snapshot s').

(** The redo stack is empty unless there is a current snapshot. *)
Definition redoHasCurrent (s : Renderer) : Prop :=
  redoStack s <> [] -> currentSnapshot s <> None.

(** The rectangle inside which [erasePoint] may erase, for an image of
    width [w] and height [h]: the selection shrunk by 10 on each edge,
    except on an edge that lies on or beyond that edge of the image.
    The position [(x, y)] is strictly inside it. *)
Definition erasable (sel : Rect) (w h : Z) (x y : Q) : bool :=
  let left := if Qle_bool (Rect.x sel) 0 then Rect.x sel
              else (Rect.x sel + 10)%Q in
  let right := if Qle_bool (inject_Z w) (Rect.x sel + Rect.width sel)
               then (Rect.x sel + Rect.width sel)%Q
               else (Rect.x sel + Rect.width sel - 10)%Q in
  let top := if Qle_bool (Rect.y sel) 0 then Rect.y sel
             else (Rect.y sel + 10)%Q in
  let bottom := if Qle_bool (inject_Z h) (Rect.y sel + Rect.height sel)
                then (Rect.y sel + Rect.height sel)%Q
                else (Rect.y sel + Rect.height sel - 10)%Q in
  Qltb left x && Qltb x right && Qltb top y && Qltb y bottom.

(** The same with the margin dropped only on an edge that coincides with
    that edge of the image. *)
Definition erasableOnCoincidence (sel : Rect) (w h : Z) (px py : Z) : bool :=
  let left := if Qeq_bool (Rect.x sel) 0 then Rect.x sel
              else (Rect.x sel + 10)%Q in
  let right := if Qeq_bool (Rect.x sel + Rect.width sel) (inject_Z w)
               then (Rect.x sel + Rect.width sel)%Q
               else (Rect.x sel + Rect.width sel - 10)%Q in
  let top := if Qeq_bool (Rect.y sel) 0 then Rect.y sel
             else (Rect.y sel + 10)%Q in
  let bottom := if Qeq_bool (Rect.y sel + Rect.height sel) (inject_Z h)
                then (Rect.y sel + Rect.height sel)%Q
                else (Rect.y sel + Rect.height sel - 10)%Q in
  Qltb left (inject_Z px) && Qltb (inject_Z px) right
  && Qltb top (inject_Z py) && Qltb (inject_Z py) bottom.

(** The pixel at [(px, py)] is nearer than [brushSize / 2] to the brush
    centre. *)
Definition underBrush (brushx brushy brushSize : Q) (px py : Z) : bool :=
  Qltb 0 brushSize
  && Qltb ((inject_Z px - brushx) ^ 2 + (inject_Z py - brushy) ^ 2)
          ((brushSize / 2) ^ 2).

(** The position [(x, y)] is no farther than [r] from [(cx, cy)]. *)
Definition withinRadius (r cx cy : Q) (x y : Z) : bool :=
  Qle_bool ((inject_Z x - cx) ^ 2 + (inject_Z y - cy) ^ 2) (r ^ 2).

(** The pixels of a window that lie within [brushSize / 2] of the point
    [(brushSize / 2, brushSize / 2)], in the order of their index. *)
Definition brushPixels (brushSize : Q) (imageData : ImageData) : list Pixel :=
  let w := ImageData.width imageData in
  map (fun k => pixelAt imageData (k mod w) (k / w))
      (filter (fun k =>
                 withinRadius (brushSize / 2) (brushSize / 2) (brushSize / 2)
                              (k mod w) (k / w))
              (range 0 (area w (ImageData.height imageData)))).

(** The sum of a channel over a list of pixels. *)
Definition total (channel : Pixel -> Z) (l : list Pixel) : Z :=
  fold_left (fun t p => t + channel p) l 0.

(** The mean of a channel over a list of pixels: the sum divided by the
    number of pixels, as a double. *)
Definition mean (channel : Pixel -> Z) (l : list Pixel) : Q :=
  Double.div (inject_Z (total channel l)) (inject_Z (Z.of_nat (length l))).

(** What the specification says of one call of [erasePoint]: the alpha
    becomes 0 exactly under the brush and inside the margins, which are
    dropped only on an edge of the selection that coincides with that
    edge of the image; nothing else changes. *)
Section Specified.
Context {platform : Platform}.

Definition erasesAsSpecified (s : Renderer) (brushx brushy brushSize : Q)
  : Prop :=
  forall sel,
    selectionOverlay s = Some sel ->
    exists s',
      erasePoint brushx brushy brushSize s = Ok s' /\
      forall px py,
        0 <= px < ImageData.width (baseImageLayer s) ->
        0 <= py < ImageData.height (baseImageLayer s) ->
        if erasableOnCoincidence sel (width s) (height s) px py
           && underBrush brushx brushy brushSize px py
        then A (pixelAt (baseImageLayer s') px py) = 0
        else pixelAt (baseImageLayer s') px py
             = pixelAt (baseImageLayer s) px py.

(** What the specification says one stop of [smudgeLine] at the point
    [(x, y)] makes of a layer: in the window read around the point, each
    pixel within [brushSize / 2] of the point [(brushSize / 2,
    brushSize / 2)] of the window gets its colour blended with the mean
    over those pixels and keeps its alpha; nothing else changes. *)
Definition smudged (brushSize brushOpacity : Q) (c : Canvas) (x y : Q)
  : Canvas :=
  let n := toLong brushSize in
  let ox := toLong (x - brushSize / 2) in
  let oy := toLong (y - brushSize / 2) in
  let pixels := brushPixels brushSize (region c ox oy n n) in
  raster (ImageData.width c) (ImageData.height c)
    (fun px py =>
       let p := pixelAt c px py in
       if inside n n (px - ox) (py - oy)
          && withinRadius (brushSize / 2) (brushSize / 2) (brushSize / 2)
                          (px - ox) (py - oy)
       then
         stored
           (mkPixel
              (toUint8Clamped
                 (Double.add (Double.mul (mean R pixels) brushOpacity)
                    (Double.mul (inject_Z (R p))
                                (Double.sub 1 brushOpacity))))
              (toUint8Clamped
                 (Double.add (Double.mul (mean G pixels) brushOpacity)
                    (Double.mul (inject_Z (G p))
                                (Double.sub 1 brushOpacity))))
              (toUint8Clamped
                 (Double.add (Double.mul (mean B pixels) brushOpacity)
                    (Double.mul (inject_Z (B p))
                                (Double.sub 1 brushOpacity))))
              (A p))
       else p).
End Specified.

(** The points of the line at which [smudgeLine] stops. *)
Section Line.
Context {platform : Platform}.

Definition lineLength (x1 y1 x2 y2 : Q) : Q :=
  sqrt ((x2 - x1) * (x2 - x1) + (y2 - y1) * (y2 - y1)).

Definition linePoint (x1 y1 x2 y2 : Q) (i : Z) : Q * Q :=
  ((x1 + inject_Z i * ((x2 - x1) / lineLength x1 y1 x2 y2))%Q,
   (y1 + inject_Z i * ((y2 - y1) / lineLength x1 y1 x2 y2))%Q).
End Line.

(** ** Sample data *)

Definition red : Pixel := mkPixel 255 0 0 255.
Definition green : Pixel := mkPixel 0 255 0 255.
Definition blue : Pixel := mkPixel 0 0 255 255.
Definition white : Pixel := mkPixel 255 255 255 255.
Definition haze : Pixel := mkPixel 100 100 100 128.

Definition image2x2 : ImageData := ImageData.mk 2 2 [red; green; blue; white].
Definition image3x1 : ImageData := ImageData.mk 3 1 [blue; white; red].

(** A renderer for an 8 x 6 output canvas after one and after two images
    were loaded. *)
Definition loaded1 : Renderer := setBaseImage image2x2 true (newRenderer 8 6).
Definition loaded2 : Renderer := setBaseImage image3x1 true loaded1.

(** A plain platform to run the engine on: integer square roots, discs
    and strokes with hard edges, nearest-neighbour resampling and colours
    written [#RRGGBB]. *)
Definition hexDigit (c : Ascii.ascii) : Z :=
  let n := Z.of_nat (Ascii.nat_of_ascii c) in
  if (48 <=? n) && (n <=? 57) then n - 48
  else if (65 <=? n) && (n <=? 70) then n - 55
  else if (97 <=? n) && (n <=? 102) then n - 87
  else 0.

Definition parseColor (color : string) : Pixel :=
  match color with
  | String _ (String r1 (String r2 (String g1 (String g2
      (String b1 (String b2 EmptyString)))))) =>
      mkPixel (16 * hexDigit r1 + hexDigit r2) (16 * hexDigit g1 + hexDigit g2)
              (16 * hexDigit b1 + hexDigit b2) 255
  | _ => mkPixel 0 0 0 255
  end.

Definition plainArc (x y r : Q) (color : string) (px py : Z) : Pixel :=
  if Qle_bool ((inject_Z px - x) * (inject_Z px - x)
               + (inject_Z py - y) * (inject_Z py - y)) (r * r)
  then parseColor color else transparentBlack.

Definition plainStroke (x1 y1 x2 y2 brushSize : Q) (color : string)
  (px py : Z) : Pixel :=
  let dx := (x2 - x1)%Q in
  let dy := (y2 - y1)%Q in
  let len2 := (dx * dx + dy * dy)%Q in
  let t := (((inject_Z px - x1) * dx + (inject_Z py - y1) * dy) / len2)%Q in
  let t := Qmax 0 (Qmin 1 t) in
  plainArc (x1 + t * dx) (y1 + t * dy) (brushSize / 2) color px py.

Definition plainResample (image : ImageData) (w h x y : Z) : Pixel :=
  pixelAt image (x * ImageData.width image / w)
                (y * ImageData.height image / h).

(** Colours are kept exactly under every alpha but 0. *)
Definition plainStored (p : Pixel) : Pixel :=
  if A p =? 0 then transparentBlack else p.

Definition plainPlatform : Platform :=
  {| stored := plainStored;
     stored_alpha := fun p =>
       ltac:(unfold plainStored; destruct (Z.eqb_spec (A p) 0) as [e|n];
             [rewrite e; reflexivity | reflexivity]);
     stored_clear := fun p e =>
       ltac:(unfold plainStored; rewrite e; reflexivity);
     stored_opaque := fun p e =>
       ltac:(unfold plainStored; rewrite e; reflexivity);
     stored_stored := fun p =>
       ltac:(unfold plainStored; destruct (Z.eqb_spec (A p) 0) as [e|n];
             [reflexivity
             | destruct (Z.eqb_spec (A p) 0); [contradiction | reflexivity]]);
     sqrt := fun q => inject_Z (Z.sqrt (Qfloor q));
     arcPaint := plainArc;
     strokePaint := plainStroke;
     resample := plainResample |}.

(** The second image loaded and the load undone: one entry to redo. *)
Definition undone : Renderer := undo true loaded2.


(** A renderer whose base image is one half-transparent pixel. *)
Definition hazy : Renderer :=
  setBaseImage (ImageData.mk 1 1 [haze]) true (newRenderer 8 6).

(** An opaque white 8 x 8 image in an 8 x 8 output canvas, with a
    selection that starts two units left of the image and ends on its
    right and bottom edges. *)
Definition white8x8 : ImageData := raster 8 8 (fun _ _ => white).

Definition overhang : Renderer :=
  setSelectionOverlay
    (Some {| Rect.x := -(2); Rect.y := 0; Rect.width := 10; Rect.height := 8 |})
    (setBaseImage white8x8 true (newRenderer 8 8)).

(** The same image with the whole image selected, in an output canvas of
    its height and in one that is higher. *)
Definition wholeImage : Renderer :=
  setSelectionOverlay
    (Some {| Rect.x := 0; Rect.y := 0; Rect.width := 8; Rect.height := 8 |})
    (setBaseImage white8x8 true (newRenderer 8 8)).

Definition tallViewport : Renderer :=
  setSelectionOverlay
    (Some {| Rect.x := 0; Rect.y := 0; Rect.width := 8; Rect.height := 8 |})
    (setBaseImage white8x8 true (newRenderer 8 20)).

(** The renderer after a call that returned. *)
Definition returned (r : Result Renderer) (s : Renderer) : Renderer :=
  match r with
  | Ok s' => s'
  | Throw _ => s
  end.

(** A renderer with red, green and blue stripes on the edit layer of an
    8 x 8 image. *)
Definition stripes : ImageData :=
  raster 8 8 (fun x _ => if x <? 3 then red else if x <? 6 then green else blue).

Definition striped : Renderer :=
  setEditImage (Some stripes) wholeImage.


(** Two images loaded, the whole of the second selected, and a point
    erased without a snapshot taken afterwards. *)
Definition erasedUnsaved : Renderer :=
  let s :=
    setSelectionOverlay
      (Some {| Rect.x := 0; Rect.y := 0; Rect.width := 8; Rect.height := 8 |})
      (setBaseImage white8x8 true loaded1) in
  returned (@erasePoint plainPlatform 4 4 4 s) s.


(** ** Further statements *)

(** The history holds at most [maxSnapshots] snapshots beside the current
    one. *)
Definition historyBounded (s : Renderer) : Prop :=
  (length (undoStack s) + length (redoStack s) <= maxSnapshots)%nat.

(** The undo stack is empty unless there is a current snapshot. *)
Definition undoHasCurrent (s : Renderer) : Prop :=
  undoStack s <> [] -> currentSnapshot s <> None.

(** The four image layers have one size. *)
Definition layersAgree (s : Renderer) : Prop :=
  let w := ImageData.width (baseImageLayer s) in
  let h := ImageData.height (baseImageLayer s) in
  ImageData.width (refImageLayer s) = w /\
  ImageData.height (refImageLayer s) = h /\
  ImageData.width (editLayer s) = w /\
  ImageData.height (editLayer s) = h /\
  ImageData.width (overlayLayer s) = w /\
  ImageData.height (overlayLayer s) = h.

(** The sizes of the base, reference, edit and overlay layers. *)
Definition size (c : Canvas) : Z * Z :=
  (ImageData.width c, ImageData.height c).

Definition layerSizes (s : Renderer) : (Z * Z) * (Z * Z) * (Z * Z) * (Z * Z) :=
  (size (baseImageLayer s), size (refImageLayer s), size (editLayer s),
   size (overlayLayer s)).

(** The fields [width] and [height] are 0 until an image is loaded and
    the size of the base layer from then on. *)
Definition imageSizeRecorded (s : Renderer) : Prop :=
  (width s, height s) = (0, 0) \/
  (width s, height s) = size (baseImageLayer s).

(** The colour channels of a pixel are bytes. *)
Definition byteColour (p : Pixel) : Prop :=
  0 <= R p <= 255 /\ 0 <= G p <= 255 /\ 0 <= B p <= 255.

Definition black : Pixel := mkPixel 0 0 0 255.
(** ** Raster lemmas *)

Lemma length_range start n : length (range start n) = n.
Proof. revert start. induction n; intros; simpl; [|rewrite IHn]; reflexivity. Qed.

Lemma nth_range start n k d :
  (k < n)%nat -> nth k (range start n) d = start + Z.of_nat k.
Proof.
  revert start k. induction n as [|n IH]; intros start k Hk; [lia|].
  destruct k as [|k]; simpl; [lia|].
  rewrite IH by lia. lia.
Qed.

Lemma in_range start n k :
  In k (range start n) <-> start <= k < start + Z.of_nat n.
Proof.
  revert start. induction n as [|n IH]; intros start; simpl; [lia|].
  rewrite IH. lia.
Qed.

Lemma length_tabulate w h f : length (tabulate w h f) = area w h.
Proof. unfold tabulate. now rewrite length_map, length_range. Qed.

Lemma wf_raster w h f : 0 <= w -> 0 <= h -> wf (raster w h f).
Proof.
  intros Hw Hh. unfold wf, raster; simpl.
  repeat split; try assumption. apply length_tabulate.
Qed.

Lemma index_lt_area w h x y :
  0 <= x < w -> 0 <= y < h -> (Z.to_nat (y * w + x) < area w h)%nat.
Proof.
  intros Hx Hy. unfold area.
  rewrite <- Z2Nat.inj_mul by lia.
  apply Z2Nat.inj_lt; nia.
Qed.

Lemma index_col w x y : 0 <= x < w -> (y * w + x) mod w = x.
Proof.
  intros Hx. rewrite Z.add_comm, Z.mod_add by lia. apply Z.mod_small; lia.
Qed.

Lemma index_row w x y : 0 <= x < w -> (y * w + x) / w = y.
Proof.
  intros Hx. rewrite Z.add_comm, Z.div_add by lia.
  rewrite Z.div_small by lia. lia.
Qed.

Lemma inside_true w h x y :
  inside w h x y = true <-> (0 <= x < w /\ 0 <= y < h).
Proof. unfold inside. rewrite !andb_true_iff. lia. Qed.

Lemma inside_false w h x y :
  inside w h x y = false <-> ~ (0 <= x < w /\ 0 <= y < h).
Proof.
  rewrite <- inside_true. destruct (inside w h x y); intuition congruence.
Qed.

Lemma nth_map_range {T : Type} (f : Z -> T) (n k : nat) (d : T) :
  (k < n)%nat -> nth k (map f (range 0 n)) d = f (Z.of_nat k).
Proof.
  intros Hk.
  rewrite nth_indep with (d' := f 0) by (now rewrite length_map, length_range).
  rewrite (map_nth f). now rewrite nth_range.
Qed.

Lemma nth_tabulate w h f x y :
  0 <= x < w -> 0 <= y < h ->
  nth (Z.to_nat (y * w + x)) (tabulate w h f) transparentBlack = f x y.
Proof.
  intros Hx Hy. unfold tabulate.
  pose proof (index_lt_area w h x y Hx Hy) as Hlt.
  rewrite nth_map_range by assumption.
  rewrite Z2Nat.id by nia.
  now rewrite index_col, index_row.
Qed.

Lemma pixelAt_raster w h f x y :
  pixelAt (raster w h f) x y =
  if inside w h x y then f x y else transparentBlack.
Proof.
  unfold pixelAt, raster; simpl.
  destruct (inside w h x y) eqn:E; [|reflexivity].
  apply inside_true in E. now apply nth_tabulate.
Qed.

Lemma pixelAt_outside img x y :
  inside (ImageData.width img) (ImageData.height img) x y = false ->
  pixelAt img x y = transparentBlack.
Proof. unfold pixelAt. now intros ->. Qed.

Lemma index_split w k :
  0 < w -> 0 <= k -> 0 <= k mod w < w /\ 0 <= k / w /\ (k / w) * w + k mod w = k.
Proof.
  intros Hw Hk. pose proof (Z.mod_pos_bound k w Hw).
  pose proof (Z.div_pos k w Hk Hw).
  pose proof (Z.div_mod k w). nia.
Qed.

Lemma tabulate_ext w h f g :
  (forall x y, 0 <= x < w -> 0 <= y < h -> f x y = g x y) ->
  tabulate w h f = tabulate w h g.
Proof.
  intros Hfg. unfold tabulate. apply map_ext_in.
  intros k Hk. apply in_range in Hk. unfold area in Hk.
  destruct (Z_le_gt_dec w 0) as [Hw|Hw].
  { replace (Z.to_nat w) with 0%nat in Hk by lia. simpl in Hk. lia. }
  destruct (Z_le_gt_dec h 0) as [Hh|Hh].
  { replace (Z.to_nat h) with 0%nat in Hk by lia. lia. }
  destruct (index_split w k) as (Hc & Hr & Hs); try lia.
  apply Hfg; [lia|]. split; [lia|].
  assert (k < w * h) by (rewrite <- (Z2Nat.id w), <- (Z2Nat.id h) by lia; lia).
  nia.
Qed.

Lemma tabulate_pixelAt img :
  wf img ->
  tabulate (ImageData.width img) (ImageData.height img) (pixelAt img)
  = ImageData.data img.
Proof.
  intros (Hw & Hh & Hlen).
  apply nth_ext with (d := transparentBlack) (d' := transparentBlack).
  - now rewrite length_tabulate.
  - intros k Hk. rewrite length_tabulate in Hk.
    set (w := ImageData.width img) in *. set (h := ImageData.height img) in *.
    assert (0 < w) as Hw0.
    { unfold area in Hk. destruct (Z_le_gt_dec w 0); [|lia].
      replace (Z.to_nat w) with 0%nat in Hk by lia. simpl in Hk; lia. }
    assert (0 < h) as Hh0.
    { unfold area in Hk. destruct (Z_le_gt_dec h 0); [|lia].
      replace (Z.to_nat h) with 0%nat in Hk by lia. lia. }
    destruct (index_split w (Z.of_nat k)) as (Hc & Hr & Hs); try lia.
    assert (Z.of_nat k < w * h) as Hkz
      by (unfold area in Hk; rewrite <- (Z2Nat.id w), <- (Z2Nat.id h) by lia; lia).
    assert (Z.of_nat k / w < h) as Hrow by nia.
    replace k with (Z.to_nat ((Z.of_nat k / w) * w + Z.of_nat k mod w)) at 1
      by (rewrite Hs; apply Nat2Z.id).
    rewrite nth_tabulate by lia.
    unfold pixelAt. fold w h.
    replace (inside w h (Z.of_nat k mod w) (Z.of_nat k / w)) with true
      by (symmetry; apply inside_true; lia).
    rewrite Hs. now rewrite Nat2Z.id.
Qed.

Lemma raster_pixelAt img :
  wf img ->
  raster (ImageData.width img) (ImageData.height img) (pixelAt img) = img.
Proof.
  intros H. unfold raster. rewrite tabulate_pixelAt by assumption.
  now destruct img.
Qed.

Lemma raster_ext w h f g :
  (forall x y, 0 <= x < w -> 0 <= y < h -> f x y = g x y) ->
  raster w h f = raster w h g.
Proof. intros H. unfold raster. f_equal. now apply tabulate_ext. Qed.

Lemma pixelAt_inside_Forall (P : Pixel -> Prop) (c : ImageData) (x y : Z) :
  wf c -> Forall P (ImageData.data c) ->
  0 <= x < ImageData.width c -> 0 <= y < ImageData.height c ->
  P (pixelAt c x y).
Proof.
  intros (Hw & Hh & Hlen) Hall Hx Hy. unfold pixelAt.
  replace (inside _ _ x y) with true by (symmetry; now apply inside_true).
  rewrite Forall_forall in Hall. apply Hall. apply nth_In.
  rewrite Hlen. now apply index_lt_area.
Qed.

Lemma Pixel_eqb_eq (p q : Pixel) : Pixel_eqb p q = true -> p = q.
Proof.
  unfold Pixel_eqb. rewrite !andb_true_iff, !Z.eqb_eq.
  destruct p, q; simpl. intros (((-> & ->) & ->) & ->). reflexivity.
Qed.

Lemma region_full (c : Canvas) :
  wf c -> region c 0 0 (ImageData.width c) (ImageData.height c) = c.
Proof.
  intros Hwf. pose proof Hwf as (Hw & Hh & _).
  unfold region.
  replace (ImageData.width c <? 0) with false by (symmetry; apply Z.ltb_ge; lia).
  replace (ImageData.height c <? 0) with false by (symmetry; apply Z.ltb_ge; lia).
  rewrite !Z.abs_eq by assumption.
  transitivity (raster (ImageData.width c) (ImageData.height c) (pixelAt c));
    [|now apply raster_pixelAt].
  apply raster_ext. intros x y _ _. reflexivity.
Qed.

Lemma putImageData_full (c : Canvas) (img : ImageData) :
  wf img ->
  ImageData.width c = ImageData.width img ->
  ImageData.height c = ImageData.height img ->
  putImageData c img 0 0 = img.
Proof.
  intros Hwf Hw Hh. unfold putImageData. rewrite Hw, Hh.
  transitivity
    (raster (ImageData.width img) (ImageData.height img) (pixelAt img));
    [|now apply raster_pixelAt].
  apply raster_ext. intros x y Hx Hy.
  rewrite !Z.sub_0_r.
  replace (inside _ _ x y) with true by (symmetry; now apply inside_true).
  reflexivity.
Qed.

(** ** Arrays *)

Lemma pop_push {T : Type} (l : list T) (x : T) : pop (push l x) = Some (x, l).
Proof. unfold pop, push. rewrite rev_app_distr. simpl. now rewrite rev_involutive. Qed.

Lemma pop_nil_iff {T : Type} (l : list T) : pop l = None <-> l = [].
Proof.
  unfold pop. split.
  - destruct (rev l) eqn:E; [|discriminate]. intros _.
    rewrite <- (rev_involutive l), E. reflexivity.
  - intros ->. reflexivity.
Qed.

Lemma pop_some {T : Type} (l : list T) (x : T) (r : list T) :
  pop l = Some (x, r) <-> l = r ++ [x].
Proof.
  split.
  - unfold pop. destruct (rev l) eqn:E; [discriminate|].
    intros [= <- <-]. rewrite <- (rev_involutive l), E. reflexivity.
  - intros ->. apply pop_push.
Qed.

(** ** History *)

Lemma snapshot_current (s : Renderer) :
  wf (baseImageLayer s) ->
  currentSnapshot (snapshot s) = Some (baseImageLayer s).
Proof.
  intros Hwf. unfold snapshot, getContext.
  rewrite (region_full _ Hwf).
  destruct (currentSnapshot s); simpl; [|reflexivity].
  destruct (0 <? length (redoStack s))%nat; simpl;
    destruct (maxSnapshots <? _)%nat; reflexivity.
Qed.

Lemma snapshot_baseImageLayer (s : Renderer) :
  baseImageLayer (snapshot s) = baseImageLayer s.
Proof.
  unfold snapshot, getContext.
  destruct (currentSnapshot s); simpl; [|reflexivity].
  destruct (0 <? length (redoStack s))%nat; simpl;
    destruct (maxSnapshots <? _)%nat; reflexivity.
Qed.

(** C1. [snapshot()] captures the raster of the base layer as the current
    snapshot and leaves the base layer alone.  Without a previous current
    snapshot the undo and redo stacks are unchanged; with one, it is pushed
    on the undo stack, whose oldest entry is dropped when that makes more
    than 50 entries, and the redo stack becomes empty. *)
Theorem snapshot_captures_base_layer (s : Renderer) :
  wf (baseImageLayer s) ->
  currentSnapshot (snapshot s) = Some (baseImageLayer s) /\
  baseImageLayer (snapshot s) = baseImageLayer s /\
  match currentSnapshot s with
  | None =>
      undoStack (snapshot s) = undoStack s /\
      redoStack (snapshot s) = redoStack s
  | Some previous =>
      undoStack (snapshot s) =
        (if (50 <? length (undoStack s ++ [previous]))%nat
         then tl (undoStack s ++ [previous])
         else undoStack s ++ [previous]) /\
      redoStack (snapshot s) = []
  end.
Proof.
  intros Hwf. split; [now apply snapshot_current|].
  split; [apply snapshot_baseImageLayer|].
  unfold snapshot, getContext.
  destruct (currentSnapshot s) as [previous|]; simpl; [|split; reflexivity].
  unfold push, shift, maxSnapshots.
  destruct (redoStack s) as [|r rs] eqn:Hredo; simpl;
    destruct (50 <? length (undoStack s ++ [previous]))%nat; simpl;
    rewrite ?Hredo; split; reflexivity.
Qed.

Lemma wfb_wf (img : ImageData) : wfb img = true -> wf img.
Proof.
  unfold wfb, wf. rewrite !andb_true_iff, !Z.leb_le, Nat.eqb_eq. tauto.
Qed.

Lemma snapshot_captures_base_layer_witness :
  wf (baseImageLayer loaded1) /\
  currentSnapshot (snapshot loaded1) = Some (baseImageLayer loaded1).
Proof.
  assert (wf (baseImageLayer loaded1)) as H
    by (apply wfb_wf; lazy; reflexivity).
  split; [exact H|]. apply (snapshot_captures_base_layer loaded1 H).
Defined.

Lemma undo_redo_base (s : Renderer) (current : ImageData) :
  currentSnapshot s = Some current ->
  undoStack s <> [] ->
  wf current ->
  ImageData.width (baseImageLayer s) = ImageData.width current ->
  ImageData.height (baseImageLayer s) = ImageData.height current ->
  baseImageLayer (redo (undo true s)) = current.
Proof.
  intros Hcur Hundo Hwf Hw Hh. unfold undo.
  destruct (pop (undoStack s)) as [[imageData rest]|] eqn:Hpop;
    [|now apply pop_nil_iff in Hpop].
  rewrite Hcur. unfold redo, getContext. simpl.
  rewrite pop_push. simpl.
  apply putImageData_full; assumption.
Qed.

Lemma snapshots_synced (n : nat) (s : Renderer) :
  snapshots n s ->
  undoStack s <> [] ->
  currentSnapshot s = Some (baseImageLayer s) /\ wf (baseImageLayer s).
Proof.
  intros H. destruct H as [cw ch|n s s' _ _ Hwf].
  - intros Hundo. now contradiction Hundo.
  - intros _. rewrite snapshot_baseImageLayer. split; [|assumption].
    now apply snapshot_current.
Qed.

(** C2. In a state that at most 50 calls of [snapshot()] lead to, with a
    non-empty undo stack and no selection active, [undo()] followed by
    [redo()] leaves in the base layer exactly the raster that was there
    before the [undo()]. *)
Theorem undo_then_redo_restores_base_layer (n : nat) (s : Renderer) :
  snapshots n s ->
  (n <= 50)%nat ->
  undoStack s <> [] ->
  hasSelection s = false ->
  baseImageLayer (redo (undo true s)) = baseImageLayer s.
Proof.
  intros Hs _ Hundo _.
  destruct (snapshots_synced n s Hs Hundo) as (Hcur & Hwf).
  now apply undo_redo_base.
Qed.

Lemma wf_drawImage (c : Canvas) (image : ImageData) (dx dy : Z) :
  0 <= ImageData.width c -> 0 <= ImageData.height c ->
  wf (drawImage c image dx dy).
Proof. intros. now apply wf_raster. Qed.

Lemma resetView_sameHistory (s : Renderer) : sameHistory s (resetView s).
Proof.
  unfold resetView, sameHistory. destruct (Qltb _ _); simpl; repeat split.
Qed.

Lemma resetView_baseImageLayer (s : Renderer) :
  baseImageLayer (resetView s) = baseImageLayer s.
Proof. unfold resetView. destruct (Qltb _ _); reflexivity. Qed.

(** Loading an image is one more call of [snapshot()]. *)
Lemma snapshots_setBaseImage (n : nat) (s : Renderer) (image : ImageData)
  (updateSelectionOverlay : bool) :
  snapshots n s ->
  0 <= ImageData.width image -> 0 <= ImageData.height image ->
  snapshots (S n) (setBaseImage image updateSelectionOverlay s).
Proof.
  intros Hs Hw Hh. unfold setBaseImage, getContext.
  eapply (snapshots_next n s); [exact Hs| |].
  - match goal with |- sameHistory _ (resetView ?t) =>
      destruct (resetView_sameHistory t) as (H1 & H2 & H3)
    end.
    unfold sameHistory. rewrite <- H1, <- H2, <- H3.
    destruct updateSelectionOverlay; repeat split.
  - rewrite resetView_baseImageLayer.
    destruct updateSelectionOverlay; simpl; now apply wf_drawImage.
Qed.

Lemma undo_then_redo_restores_base_layer_witness :
  baseImageLayer (redo (undo true loaded2)) = baseImageLayer loaded2.
Proof.
  apply (undo_then_redo_restores_base_layer 2 loaded2).
  - apply snapshots_setBaseImage; [|simpl; lia|simpl; lia].
    apply snapshots_setBaseImage; [|simpl; lia|simpl; lia].
    constructor.
  - lia.
  - lazy. discriminate.
  - lazy. reflexivity.
Defined.


(** What [redo()] brings back is the snapshot: a change made to the base
    layer after the last [snapshot()], here by [erasePoint], is lost by
    [undo()] followed by [redo()]. *)
Lemma redo_restores_the_snapshot :
  undoStack erasedUnsaved <> [] /\
  pixelAt (baseImageLayer erasedUnsaved) 4 4 = transparentBlack /\
  pixelAt (baseImageLayer (redo (undo true erasedUnsaved))) 4 4 = white.
Proof.
  split; [vm_compute; discriminate|].
  split; vm_compute; reflexivity.
Qed.

(** ** The redo stack and the current snapshot *)

Lemma redoHasCurrent_same (s s' : Renderer) :
  redoStack s' = redoStack s -> currentSnapshot s' = currentSnapshot s ->
  redoHasCurrent s -> redoHasCurrent s'.
Proof. unfold redoHasCurrent. now intros -> ->. Qed.

Lemma redoHasCurrent_some (s : Renderer) (imageData : ImageData) :
  currentSnapshot s = Some imageData -> redoHasCurrent s.
Proof. unfold redoHasCurrent. intros ->. discriminate. Qed.

Lemma snapshot_some (s : Renderer) :
  exists imageData, currentSnapshot (snapshot s) = Some imageData.
Proof.
  unfold snapshot, getContext.
  destruct (currentSnapshot s); simpl; [|eauto].
  destruct (0 <? length (redoStack s))%nat; simpl;
    destruct (maxSnapshots <? _)%nat; simpl; eauto.
Qed.

Lemma redoHasCurrent_snapshot (s : Renderer) : redoHasCurrent (snapshot s).
Proof.
  destruct (snapshot_some s) as (imageData & H).
  exact (redoHasCurrent_some _ _ H).
Qed.

Lemma redoHasCurrent_undo (allowRedo : bool) (s : Renderer) :
  redoHasCurrent s -> redoHasCurrent (undo allowRedo s).
Proof.
  intros H. unfold undo.
  destruct (pop (undoStack s)) as [[imageData rest]|]; [|exact H].
  destruct (currentSnapshot s); [|exact H].
  apply (redoHasCurrent_some _ imageData).
  unfold getContext. destruct allowRedo; reflexivity.
Qed.

Lemma redoHasCurrent_redo (s : Renderer) :
  redoHasCurrent s -> redoHasCurrent (redo s).
Proof.
  intros H. unfold redo.
  destruct (pop (redoStack s)) as [[imageData rest]|]; [|exact H].
  destruct (currentSnapshot s); [|exact H].
  now apply (redoHasCurrent_some _ imageData).
Qed.

Lemma redoHasCurrent_setBaseImage (image : ImageData) (b : bool)
  (s : Renderer) : redoHasCurrent (setBaseImage image b s).
Proof. unfold setBaseImage, getContext. apply redoHasCurrent_snapshot. Qed.

Ltac same_history :=
  match goal with
  | H : redoHasCurrent ?s |- redoHasCurrent _ =>
      apply (redoHasCurrent_same s); [| |exact H];
      repeat match goal with
        | |- context [match ?x with _ => _ end] => destruct x
        end;
      reflexivity
  end.

Section Reachable.
Context {platform : Platform}.

Lemma redoHasCurrent_after (c : Call) (s : Renderer) :
  redoHasCurrent s -> redoHasCurrent (after c s).
Proof.
  intros H. destruct c; unfold after, perform.
  - now apply redoHasCurrent_undo.
  - now apply redoHasCurrent_redo.
  - unfold clearRedoStack, redoHasCurrent. simpl. congruence.
  - apply redoHasCurrent_snapshot.
  - same_history.
  - same_history.
  - exact H.
  - same_history.
  - same_history.
  - same_history.
  - same_history.
  - unfold addReferenceImage, getContext. same_history.
  - same_history.
  - unfold setReferenceImage, getContext. same_history.
  - unfold clearReferenceImage, getContext. same_history.
  - unfold setOverlayImage, getContext. same_history.
  - unfold clearOverlayImage, getContext. same_history.
  - apply redoHasCurrent_setBaseImage.
  - unfold resetView. same_history.
  - unfold setEditImage, getContext. same_history.
  - same_history.
  - same_history.
  - same_history.
  - unfold commitSelection, getContext. apply redoHasCurrent_snapshot.
  - unfold drawPoint, getContext. same_history.
  - unfold erasePoint, getContext, bind.
    destruct (selectionOverlay s); [|exact H].
    destruct (getImageData _ _ _ _ _); [same_history | exact H].
  - unfold drawLine, getContext. same_history.
  - unfold smudgeLine, getContext, bind.
    destruct (fold_left _ _ _); [same_history | exact H].
  - unfold copyEditImageFromBaseImage, getContext. same_history.
  - unfold expandToOverlay, getContext, bind.
    destruct (selectionOverlay s); [|exact H].
    destruct (drawCanvas _ _ _ _); [|exact H].
    apply redoHasCurrent_setBaseImage.
Qed.

Lemma reachable_redoHasCurrent (s : Renderer) :
  reachable s -> redoHasCurrent s.
Proof.
  induction 1 as [cw ch|c s _ IH].
  - unfold redoHasCurrent. simpl. congruence.
  - now apply redoHasCurrent_after.
Qed.

Lemma reachable_ok (c : Call) (s s' : Renderer) :
  reachable s -> perform c s = Ok s' -> reachable s'.
Proof.
  intros Hs Hok. replace s' with (after c s); [now constructor|].
  unfold after. now rewrite Hok.
Qed.

(** C10. In every reachable state a non-empty redo stack comes with a
    current snapshot; every call keeps it so; hence [redo()] on a
    non-empty redo stack does restore: the entry popped becomes the
    current snapshot and is written into the base layer, and the
    previous current snapshot goes on the undo stack. *)
Theorem redo_stack_implies_current_snapshot :
  (forall s, reachable s -> redoHasCurrent s) /\
  (forall c s, redoHasCurrent s -> redoHasCurrent (after c s)) /\
  (forall s imageData rest,
      reachable s -> redoStack s = rest ++ [imageData] ->
      exists current,
        currentSnapshot s = Some current /\
        currentSnapshot (redo s) = Some imageData /\
        redoStack (redo s) = rest /\
        undoStack (redo s) = undoStack s ++ [current] /\
        baseImageLayer (redo s)
        = putImageData (baseImageLayer s) imageData 0 0).
Proof.
  split; [exact reachable_redoHasCurrent|].
  split; [exact redoHasCurrent_after|].
  intros s imageData rest Hs Hredo.
  pose proof (reachable_redoHasCurrent s Hs) as Hinv.
  unfold redoHasCurrent in Hinv.
  destruct (currentSnapshot s) as [current|] eqn:Hcur.
  - exists current. split; [reflexivity|].
    unfold redo, getContext. rewrite Hredo.
    change (rest ++ [imageData]) with (push rest imageData).
    rewrite pop_push, Hcur. simpl. repeat split.
  - exfalso. apply Hinv; [|reflexivity].
    rewrite Hredo. now destruct rest.
Qed.
End Reachable.

Lemma reachable_undone : @reachable plainPlatform undone.
Proof.
  assert (@reachable plainPlatform loaded1) as H1.
  { apply (@reachable_ok plainPlatform (call_setBaseImage image2x2 true)
             (newRenderer 8 6)).
    - apply reachable_new.
    - unfold loaded1, perform. reflexivity. }
  assert (@reachable plainPlatform loaded2) as H2.
  { apply (@reachable_ok plainPlatform (call_setBaseImage image3x1 true)
             loaded1 loaded2 H1).
    unfold loaded2, perform. reflexivity. }
  apply (@reachable_ok plainPlatform (call_undo true) loaded2 undone H2).
  unfold undone, perform. reflexivity.
Qed.

Lemma redo_stack_implies_current_snapshot_witness :
  redoStack undone <> [] /\ currentSnapshot undone <> None.
Proof.
  assert (redoStack undone <> []) as H by (lazy; discriminate).
  split; [exact H|].
  exact (proj1 (@redo_stack_implies_current_snapshot plainPlatform)
           undone reachable_undone H).
Defined.

(** ** Mask conversions *)

(** C9. [convertMaskToErasure] decides on the red channel being 255 and
    [convertErasureToMask] on the alpha channel being below 255, pixel by
    pixel; they are not inverses of each other: some raster is reproduced
    by neither round trip. *)
Theorem mask_conversions_are_not_inverses :
  (forall r,
      Forall2 (fun p q => q = if R p =? 255 then mkPixel 255 255 255 0
                              else mkPixel 0 0 0 255)
              (ImageData.data r) (ImageData.data (convertMaskToErasure r))) /\
  (forall r,
      Forall2 (fun p q => q = if A p <? 255 then mkPixel 255 255 255 255
                              else mkPixel 0 0 0 255)
              (ImageData.data r) (ImageData.data (convertErasureToMask r))) /\
  exists r,
    wf r /\
    convertErasureToMask (convertMaskToErasure r) <> r /\
    convertMaskToErasure (convertErasureToMask r) <> r.
Proof.
  split; [|split].
  - intros r. unfold convertMaskToErasure; simpl.
    induction (ImageData.data r); simpl; constructor; auto.
  - intros r. unfold convertErasureToMask; simpl.
    induction (ImageData.data r); simpl; constructor; auto.
  - exists (ImageData.mk 1 1 [haze]). split.
    + apply wfb_wf. reflexivity.
    + split; vm_compute; discriminate.
Qed.

(** ** The view *)

(** C7. [resetView()]: when the image is relatively wider than the
    viewport, the zoom is viewport width over image width, [offsetX] is 0
    and [offsetY] is (image height - viewport height / zoom) / -2;
    otherwise, equal ratios included, the zoom is viewport height over
    image height, [offsetY] is 0 and [offsetX] is
    (image width - viewport width / zoom) / -2. *)
Theorem resetView_fits_viewport (s : Renderer) :
  let imageWidth := inject_Z (width s) in
  let imageHeight := inject_Z (height s) in
  let viewportWidth := inject_Z (canvasWidth s) in
  let viewportHeight := inject_Z (canvasHeight s) in
  let s' := resetView s in
  ((viewportWidth / viewportHeight < imageWidth / imageHeight)%Q ->
   zoom s' = (viewportWidth / imageWidth)%Q /\
   offsetX s' = 0%Q /\
   offsetY s' = ((imageHeight - viewportHeight / zoom s') / -(2))%Q) /\
  (~ (viewportWidth / viewportHeight < imageWidth / imageHeight)%Q ->
   zoom s' = (viewportHeight / imageHeight)%Q /\
   offsetY s' = 0%Q /\
   offsetX s' = ((imageWidth - viewportWidth / zoom s') / -(2))%Q).
Proof.
  cbv zeta. unfold resetView, Qltb.
  destruct (Qle_bool _ _) eqn:E; simpl.
  - apply Qle_bool_iff in E. split; [|repeat split].
    intros H. exfalso. revert E. now apply Qlt_not_le.
  - split; [repeat split|].
    intros H. exfalso. apply H. apply Qnot_le_lt. intros H'.
    apply Qle_bool_iff in H'. congruence.
Qed.

Lemma resetView_fits_viewport_witness :
  zoom (resetView loaded2) = (8 / 3)%Q /\
  offsetX (resetView loaded2) = 0%Q.
Proof.
  assert (inject_Z (canvasWidth loaded2) / inject_Z (canvasHeight loaded2)
          < inject_Z (width loaded2) / inject_Z (height loaded2))%Q as H
    by (lazy; reflexivity).
  destruct (proj1 (resetView_fits_viewport loaded2) H) as (Hz & Hx & _).
  split; [exact Hz | exact Hx].
Defined.

(** ** Loading an image *)

(** The claim C5 fails: for a 2 x 2 image the selection installed by
    [setBaseImage] does not lie within the image. *)
Lemma setBaseImage_selection_not_clamped :
  ~ (forall image s,
        exists sel,
          selectionOverlay (setBaseImage image true s) = Some sel /\
          within sel (ImageData.width image) (ImageData.height image)).
Proof.
  intros H. destruct (H image2x2 (newRenderer 8 6)) as (sel & Hsel & Hin).
  lazy in Hsel. injection Hsel as <-.
  destruct Hin as (Hx & _). lazy in Hx. apply Hx. reflexivity.
Qed.

Lemma snapshot_selectionOverlay (s : Renderer) :
  selectionOverlay (snapshot s) = selectionOverlay s.
Proof.
  unfold snapshot, getContext.
  destruct (currentSnapshot s); simpl; [|reflexivity].
  destruct (0 <? length (redoStack s))%nat; simpl;
    destruct (maxSnapshots <? _)%nat; reflexivity.
Qed.

Lemma resetView_selectionOverlay (s : Renderer) :
  selectionOverlay (resetView s) = selectionOverlay s.
Proof. unfold resetView. destruct (Qltb _ _); reflexivity. Qed.

Lemma setBaseImage_selectionOverlay (image : ImageData) (s : Renderer) :
  selectionOverlay (setBaseImage image true s)
  = Some {| Rect.x := (inject_Z (ImageData.width image) - 1024) / 2;
            Rect.y := (inject_Z (ImageData.height image) - 1024) / 2;
            Rect.width := 1024;
            Rect.height := 1024 |}.
Proof.
  unfold setBaseImage, getContext.
  rewrite snapshot_selectionOverlay, resetView_selectionOverlay.
  reflexivity.
Qed.

(** C5, amended. [setBaseImage(image)] with the selection reset installs
    the 1024 x 1024 rectangle centred on the image, at
    ((width - 1024) / 2, (height - 1024) / 2), without clamping: it lies
    within the image exactly when the image is at least 1024 wide and
    1024 high. *)
Theorem setBaseImage_centres_selection (image : ImageData) (s : Renderer) :
  exists sel,
    selectionOverlay (setBaseImage image true s) = Some sel /\
    Rect.width sel = 1024%Q /\ Rect.height sel = 1024%Q /\
    (Rect.x sel + Rect.width sel / 2 == inject_Z (ImageData.width image) / 2)%Q /\
    (Rect.y sel + Rect.height sel / 2 == inject_Z (ImageData.height image) / 2)%Q /\
    (within sel (ImageData.width image) (ImageData.height image) <->
     1024 <= ImageData.width image /\ 1024 <= ImageData.height image).
Proof.
  eexists. split; [apply setBaseImage_selectionOverlay|]. simpl.
  split; [reflexivity|]. split; [reflexivity|].
  split; [field|]. split; [field|].
  unfold within; simpl.
  set (w := ImageData.width image). set (h := ImageData.height image).
  assert (forall z, (0 <= (inject_Z z - 1024) / 2)%Q <-> 1024 <= z) as Hlo.
  { intros z. unfold Qle, Qdiv, Qmult, Qminus, Qplus, Qopp, Qinv, inject_Z.
    simpl. lia. }
  assert (forall z, ((inject_Z z - 1024) / 2 + 1024 <= inject_Z z)%Q
                    <-> 1024 <= z) as Hhi.
  { intros z. unfold Qle, Qdiv, Qmult, Qminus, Qplus, Qopp, Qinv, inject_Z.
    simpl. lia. }
  rewrite !Hlo, !Hhi. tauto.
Qed.

(** ** Errors *)

(** With the whole image selected, [erasePoint] with a brush size of 0 or
    of 1/2 throws all the same. *)
Lemma erasePoint_throws_with_a_selection_set :
  selectionOverlay wholeImage <> None /\
  @erasePoint plainPlatform 4 4 0 wholeImage = Throw "IndexSizeError" /\
  @erasePoint plainPlatform 4 4 (1 # 2) wholeImage = Throw "IndexSizeError".
Proof.
  split; [lazy; discriminate|].
  split; vm_compute; reflexivity.
Qed.

Section Errors.
Context {platform : Platform}.

(** C8, amended. Without a selection rectangle [erasePoint] and
    [expandToOverlay] throw "No selection overlay".  With one set,
    [erasePoint] returns exactly when the whole part of the brush size is
    not 0, and throws the [IndexSizeError] of an empty window otherwise;
    [expandToOverlay] returns exactly when the base layer has pixels, and
    throws the [InvalidStateError] of an empty canvas otherwise. *)
Theorem erasePoint_and_expandToOverlay_throw_without_selection
  (s : Renderer) (brushx brushy brushSize : Q) :
  (selectionOverlay s = None ->
   erasePoint brushx brushy brushSize s = Throw "No selection overlay" /\
   expandToOverlay s = Throw "No selection overlay") /\
  (selectionOverlay s <> None ->
   ((exists s', erasePoint brushx brushy brushSize s = Ok s')
    <-> toLong brushSize <> 0) /\
   (toLong brushSize = 0 ->
    erasePoint brushx brushy brushSize s = Throw "IndexSizeError") /\
   ((exists s', expandToOverlay s = Ok s')
    <-> ImageData.width (baseImageLayer s) <> 0 /\
        ImageData.height (baseImageLayer s) <> 0) /\
   (ImageData.width (baseImageLayer s) = 0 \/
    ImageData.height (baseImageLayer s) = 0 ->
    expandToOverlay s = Throw "InvalidStateError")).
Proof.
  unfold erasePoint, expandToOverlay, getContext, bind, getImageData,
    drawCanvas.
  destruct (selectionOverlay s) as [sel|].
  - split; [discriminate|]. intros _.
    rewrite orb_diag.
    destruct (Z.eqb_spec (toLong brushSize) 0) as [Hz|Hz].
    + split; [split; [intros (s' & H); discriminate | contradiction]|].
      split; [reflexivity|].
      destruct (Z.eqb_spec (ImageData.width (baseImageLayer s)) 0) as [Hw|Hw];
        destruct (Z.eqb_spec (ImageData.height (baseImageLayer s)) 0)
          as [Hh|Hh]; cbn [orb];
        (split; [split; [intros (s' & H); discriminate || tauto
                        | intros (H1 & H2); contradiction || eexists;
                          reflexivity]|]);
        intros [H|H]; reflexivity || contradiction.
    + split; [split; [intros _; exact Hz | intros _; eexists; reflexivity]|].
      split; [intros H; contradiction|].
      destruct (Z.eqb_spec (ImageData.width (baseImageLayer s)) 0) as [Hw|Hw];
        destruct (Z.eqb_spec (ImageData.height (baseImageLayer s)) 0)
          as [Hh|Hh]; cbn [orb];
        (split; [split; [intros (s' & H); discriminate || tauto
                        | intros (H1 & H2); contradiction || eexists;
                          reflexivity]|]);
        intros [H|H]; reflexivity || contradiction.
  - split; [intros _; split; reflexivity|].
    intros H. now contradiction H.
Qed.
End Errors.

Lemma erasePoint_and_expandToOverlay_throw_without_selection_witness :
  (exists s', @erasePoint plainPlatform 4 4 4 wholeImage = Ok s') /\
  (exists s', expandToOverlay wholeImage = Ok s').
Proof.
  assert (selectionOverlay wholeImage <> None) as Hsel
    by (lazy; discriminate).
  destruct (proj2 (@erasePoint_and_expandToOverlay_throw_without_selection
                     plainPlatform wholeImage 4 4 4) Hsel)
    as (He & _ & Hx & _).
  split.
  - apply He. vm_compute. discriminate.
  - apply Hx. split; vm_compute; discriminate.
Defined.

(** ** Compositing *)

Lemma rdiv_exact (c d : Z) : 0 < d -> rdiv (c * d) d = c.
Proof.
  intros Hd. unfold rdiv. rewrite Z.div_add_l by lia.
  rewrite Z.div_small; [lia|].
  split; [apply Z.div_pos; lia | apply Z.div_lt_upper_bound; lia].
Qed.

Lemma over_opaque_source (s d : Pixel) : A s = 255 -> over s d = s.
Proof.
  intros Hs. unfold over. rewrite Hs.
  assert (255 * 255 + A d * (255 - 255) = 65025) as -> by lia.
  assert (forall c c', c * 255 * 255 + c' * A d * (255 - 255) = c * 65025)
    as E by (intros; lia).
  rewrite !E. change (65025 <=? 0) with false. cbv iota.
  rewrite !rdiv_exact by lia.
  destruct s; simpl in *; subst; reflexivity.
Qed.

Lemma over_opaque_destination (s d : Pixel) : A d = 255 -> A (over s d) = 255.
Proof.
  intros Hd. unfold over. rewrite Hd.
  replace (A s * 255 + 255 * (255 - A s)) with 65025 by lia. reflexivity.
Qed.

Lemma over_clear_destination (s d : Pixel) :
  A d = 0 -> over s d = over s transparentBlack.
Proof.
  intros Hd. unfold over. rewrite Hd. simpl.
  rewrite !Z.mul_0_r, !Z.mul_0_l. reflexivity.
Qed.

Lemma over_clear (s : Pixel) :
  over s transparentBlack
  = if A s * 255 <=? 0 then transparentBlack else s.
Proof.
  unfold over. simpl A. simpl R. simpl G. simpl B.
  rewrite !Z.mul_0_l, !Z.add_0_r.
  destruct (A s * 255 <=? 0) eqn:E; [reflexivity|].
  apply Z.leb_gt in E.
  assert (forall c, c * A s * 255 = c * (A s * 255)) as Ec by (intros; lia).
  rewrite !Ec, !rdiv_exact by lia.
  replace (rdiv (A s * 255) 255) with (A s) by (symmetry; apply rdiv_exact; lia).
  now destruct s.
Qed.

Lemma over_clear_idempotent (s : Pixel) :
  over (over s transparentBlack) transparentBlack = over s transparentBlack.
Proof.
  rewrite (over_clear s).
  destruct (A s * 255 <=? 0) eqn:E; [reflexivity|].
  rewrite over_clear, E. reflexivity.
Qed.

(** Drawing the flattened pair over the old base gives the flattened pair
    where the base is opaque or clear. *)
Lemma over_flatten (e b : Pixel) :
  A b = 0 \/ A b = 255 ->
  over (over e (over b transparentBlack)) b = over e b.
Proof.
  intros [Hb|Hb].
  - assert (over b transparentBlack = transparentBlack) as ->
      by (unfold over; rewrite Hb; reflexivity).
    rewrite (over_clear_destination e b Hb).
    rewrite (over_clear_destination _ b Hb).
    apply over_clear_idempotent.
  - rewrite (over_opaque_source b _ Hb).
    apply over_opaque_source. now apply over_opaque_destination.
Qed.

(** ** Committing the edit layer *)

Lemma pixelAt_drawImage (c : Canvas) (image : ImageData) (dx dy x y : Z) :
  0 <= x < ImageData.width c -> 0 <= y < ImageData.height c ->
  pixelAt (drawImage c image dx dy) x y
  = if inside (ImageData.width image) (ImageData.height image) (x - dx) (y - dy)
    then over (pixelAt image (x - dx) (y - dy)) (pixelAt c x y)
    else pixelAt c x y.
Proof.
  intros Hx Hy. unfold drawImage. rewrite pixelAt_raster.
  replace (inside _ _ x y) with true by (symmetry; now apply inside_true).
  reflexivity.
Qed.

Lemma pixelAt_alpha (c : ImageData) (x y : Z) :
  wf c ->
  Forall (fun p => A p = 0 \/ A p = 255) (ImageData.data c) ->
  A (pixelAt c x y) = 0 \/ A (pixelAt c x y) = 255.
Proof.
  intros (Hw & Hh & Hlen) Hall. unfold pixelAt.
  destruct (inside _ _ x y) eqn:E; [|now left].
  apply inside_true in E.
  rewrite Forall_forall in Hall. apply Hall. apply nth_In.
  rewrite Hlen. apply index_lt_area; tauto.
Qed.

(** The three [drawImage] calls of [commitSelection]. *)
Lemma commit_flatten (base edit : Canvas) :
  wf base ->
  ImageData.width edit = ImageData.width base ->
  ImageData.height edit = ImageData.height base ->
  Forall (fun p => A p = 0 \/ A p = 255) (ImageData.data base) ->
  drawImage base
    (drawImage
       (drawImage (blankCanvas (ImageData.width base) (ImageData.height base))
                  base 0 0)
       edit 0 0) 0 0
  = drawImage base edit 0 0.
Proof.
  intros Hwf Hw Hh Hall. unfold drawImage at 1 4. simpl.
  apply raster_ext. intros x y Hx Hy.
  rewrite !Z.sub_0_r, Hw, Hh.
  replace (inside _ _ x y) with true by (symmetry; now apply inside_true).
  rewrite pixelAt_drawImage by (simpl; assumption).
  rewrite !Z.sub_0_r, Hw, Hh.
  replace (inside _ _ x y) with true by (symmetry; now apply inside_true).
  rewrite pixelAt_drawImage by (simpl; assumption).
  rewrite !Z.sub_0_r.
  replace (inside _ _ x y) with true by (symmetry; now apply inside_true).
  unfold blankCanvas. rewrite pixelAt_raster.
  replace (inside _ _ x y) with true by (symmetry; now apply inside_true).
  apply over_flatten. now apply pixelAt_alpha.
Qed.

Lemma tl_snoc {T : Type} (l : list T) (x : T) :
  l <> [] -> tl (l ++ [x]) = tl l ++ [x].
Proof. destruct l; [congruence|reflexivity]. Qed.

(** After [snapshot()] the previous current snapshot is the newest undo
    entry. *)
Lemma snapshot_undoStack (s : Renderer) (previous : ImageData) :
  currentSnapshot s = Some previous ->
  exists rest, undoStack (snapshot s) = rest ++ [previous].
Proof.
  intros Hcur. unfold snapshot, getContext. rewrite Hcur. simpl.
  unfold push, shift, maxSnapshots.
  destruct (0 <? length (redoStack s))%nat; simpl;
    destruct (50 <? length (undoStack s ++ [previous]))%nat eqn:E; simpl;
    try (eexists; reflexivity);
    (apply Nat.ltb_lt in E; rewrite length_app in E; simpl in E;
     exists (tl (undoStack s)); apply tl_snoc;
     intros H0; rewrite H0 in E; simpl in E; lia).
Qed.

Lemma snapshot_hasSelection (s : Renderer) :
  hasSelection (snapshot s) = hasSelection s.
Proof.
  unfold snapshot, getContext.
  destruct (currentSnapshot s); simpl; [|reflexivity].
  destruct (0 <? length (redoStack s))%nat; simpl;
    destruct (maxSnapshots <? _)%nat; reflexivity.
Qed.

Lemma setEditImage_None (s : Renderer) :
  hasSelection (setEditImage None s) = false /\
  baseImageLayer (setEditImage None s) = baseImageLayer s /\
  currentSnapshot (setEditImage None s) = currentSnapshot s.
Proof.
  unfold setEditImage, getContext.
  destruct (selectionOverlay _); repeat split.
Qed.

(** [commitSelection] is the flattening, then [setEditImage(null)], then
    [snapshot()]. *)
Lemma commitSelection_eq (s : Renderer) :
  commitSelection s
  = snapshot
      (setEditImage None
         (set_baseImageLayer
            (drawImage (baseImageLayer s)
               (drawImage
                  (drawImage
                     (blankCanvas (ImageData.width (baseImageLayer s))
                                  (ImageData.height (baseImageLayer s)))
                     (baseImageLayer s) 0 0)
                  (editLayer s) 0 0) 0 0) s)).
Proof. reflexivity. Qed.

(** The claim C4 fails: on a new renderer, which has no current snapshot
    yet, [commitSelection()] leaves nothing to undo. *)
Lemma commitSelection_without_snapshot_has_no_undo :
  ~ (forall s,
        let s' := commitSelection s in
        hasSelection s' = false /\
        baseImageLayer s' = drawImage (baseImageLayer s) (editLayer s) 0 0 /\
        canUndo s' = true /\
        baseImageLayer (undo true s') = baseImageLayer s).
Proof.
  intros H. destruct (H (newRenderer 8 6)) as (_ & _ & Hundo & _).
  lazy in Hundo. discriminate.
Qed.

(** Where the base layer is half transparent the commit does not yield
    the base with the edit layer on top: the pixel is blended with
    itself. *)
Lemma commitSelection_blends_base_twice :
  pixelAt (baseImageLayer hazy) 0 0 = mkPixel 100 100 100 128 /\
  pixelAt (drawImage (baseImageLayer hazy) (editLayer hazy) 0 0) 0 0
  = mkPixel 100 100 100 128 /\
  pixelAt (baseImageLayer (commitSelection hazy)) 0 0
  = mkPixel 100 100 100 192.
Proof. repeat split; vm_compute; reflexivity. Qed.

(** C4, amended. After [commitSelection()] no selection is active.  If a
    current snapshot existed, there is something to undo, and [undo()]
    makes that snapshot current again and writes it into the base layer:
    the raster the base layer had before the commit, when the snapshot was
    taken of it.  When the edit layer has the size of the base layer and
    every pixel of the base layer is opaque or clear, the commit leaves in
    the base layer the previous base with the edit layer drawn on top. *)
Theorem commitSelection_flattens_and_snapshots (s : Renderer) :
  wf (baseImageLayer s) ->
  let s' := commitSelection s in
  hasSelection s' = false /\
  (ImageData.width (editLayer s) = ImageData.width (baseImageLayer s) ->
   ImageData.height (editLayer s) = ImageData.height (baseImageLayer s) ->
   Forall (fun p => A p = 0 \/ A p = 255) (ImageData.data (baseImageLayer s)) ->
   baseImageLayer s' = drawImage (baseImageLayer s) (editLayer s) 0 0) /\
  (forall current,
      currentSnapshot s = Some current ->
      canUndo s' = true /\
      currentSnapshot (undo true s') = Some current /\
      baseImageLayer (undo true s')
      = putImageData (clearRect (baseImageLayer s')) current 0 0) /\
  (currentSnapshot s = Some (baseImageLayer s) ->
   baseImageLayer (undo true s') = baseImageLayer s).
Proof.
  intros Hwf s'. subst s'. rewrite commitSelection_eq.
  set (flat := drawImage (baseImageLayer s) _ 0 0).
  set (s1 := set_baseImageLayer flat s).
  destruct (setEditImage_None s1) as (Hsel & Hbase & Hcur).
  set (s2 := setEditImage None s1) in *.
  assert (forall current, currentSnapshot s = Some current ->
            canUndo (snapshot s2) = true /\
            currentSnapshot (undo true (snapshot s2)) = Some current /\
            baseImageLayer (undo true (snapshot s2))
            = putImageData (clearRect (baseImageLayer (snapshot s2)))
                current 0 0) as Hundo.
  { intros current Hc.
    assert (currentSnapshot s2 = Some current) as Hc2 by (rewrite Hcur; exact Hc).
    destruct (snapshot_undoStack s2 current Hc2) as (rest & Hstack).
    destruct (snapshot_some s2) as (captured & Hcap).
    split.
    - unfold canUndo. rewrite snapshot_hasSelection, Hsel, Hstack.
      rewrite length_app. simpl.
      apply Nat.ltb_lt. lia.
    - unfold undo, getContext. rewrite Hstack.
      change (rest ++ [current]) with (push rest current).
      rewrite pop_push, Hcap. simpl. split; reflexivity. }
  split; [now rewrite snapshot_hasSelection|].
  split.
  - intros Hw Hh Hall. rewrite snapshot_baseImageLayer, Hbase.
    subst s1 flat. simpl. now apply commit_flatten.
  - split; [exact Hundo|].
    intros Hc. destruct (Hundo _ Hc) as (_ & _ & ->).
    apply putImageData_full; [assumption| |].
    + rewrite snapshot_baseImageLayer, Hbase. reflexivity.
    + rewrite snapshot_baseImageLayer, Hbase. reflexivity.
Qed.

Lemma commitSelection_flattens_and_snapshots_witness :
  hasSelection (commitSelection loaded1) = false /\
  baseImageLayer (undo true (commitSelection loaded1)) = baseImageLayer loaded1.
Proof.
  assert (wf (baseImageLayer loaded1)) as Hwf
    by (apply wfb_wf; lazy; reflexivity).
  destruct (commitSelection_flattens_and_snapshots loaded1 Hwf)
    as (Hsel & _ & _ & Hundo).
  split; [exact Hsel|].
  apply Hundo. lazy. reflexivity.
Defined.

(** ** Numbers *)

Lemma Qltb_lt (a b : Q) : Qltb a b = true <-> (a < b)%Q.
Proof.
  unfold Qltb. rewrite negb_true_iff. split.
  - intros H. apply Qnot_le_lt. intros H'. apply Qle_bool_iff in H'. congruence.
  - intros H. destruct (Qle_bool b a) eqn:E; [|reflexivity].
    apply Qle_bool_iff in E. exfalso. revert E. now apply Qlt_not_le.
Qed.

Lemma Qle_bool_comp (a a' b b' : Q) :
  (a == a')%Q -> (b == b')%Q -> Qle_bool a b = Qle_bool a' b'.
Proof.
  intros Ha Hb.
  destruct (Qle_bool a b) eqn:E, (Qle_bool a' b') eqn:E'; try reflexivity.
  - apply Qle_bool_iff in E. rewrite Ha, Hb in E.
    apply Qle_bool_iff in E. congruence.
  - apply Qle_bool_iff in E'. rewrite <- Ha, <- Hb in E'.
    apply Qle_bool_iff in E'. congruence.
Qed.

Lemma Qltb_comp (a a' b b' : Q) :
  (a == a')%Q -> (b == b')%Q -> Qltb a b = Qltb a' b'.
Proof. intros Ha Hb. unfold Qltb. f_equal. now apply Qle_bool_comp. Qed.

Lemma Qltb_inject_Z (a b : Z) : Qltb (inject_Z a) (inject_Z b) = (a <? b).
Proof.
  destruct (a <? b) eqn:E.
  - apply Qltb_lt. rewrite <- Zlt_Qlt. now apply Z.ltb_lt.
  - destruct (Qltb _ _) eqn:E'; [|reflexivity].
    apply Qltb_lt in E'. rewrite <- Zlt_Qlt in E'. apply Z.ltb_lt in E'.
    congruence.
Qed.

Lemma toLong_comp (a b : Q) : (a == b)%Q -> toLong a = toLong b.
Proof.
  intros H. unfold toLong.
  rewrite (Qle_bool_comp 0 0 a b (Qeq_refl 0) H).
  now rewrite (Qfloor_comp a b H), (Qceiling_comp a b H).
Qed.

Lemma toLong_inject_Z (z : Z) : toLong (inject_Z z) = z.
Proof.
  unfold toLong. rewrite Qfloor_Z, Qceiling_Z. now destruct (Qle_bool _ _).
Qed.

Lemma Qfloor_div (k w : Z) :
  0 < w -> Qfloor (inject_Z k / inject_Z w) = k / w.
Proof.
  intros Hw. destruct w as [|w|w]; try lia.
  unfold Qfloor, Qdiv, Qmult, Qinv, inject_Z. simpl.
  now rewrite Z.mul_1_r.
Qed.

Lemma toLong_div (k w : Z) :
  0 <= k -> 0 < w -> toLong (inject_Z k / inject_Z w) = k / w.
Proof.
  intros Hk Hw. unfold toLong.
  replace (Qle_bool 0 (inject_Z k / inject_Z w)) with true;
    [now apply Qfloor_div|].
  symmetry. apply Qle_bool_iff.
  apply Qle_shift_div_l.
  - change 0%Q with (inject_Z 0). now rewrite <- Zlt_Qlt.
  - rewrite Qmult_0_l. change 0%Q with (inject_Z 0). now rewrite <- Zle_Qle.
Qed.

Lemma jsRem_inject_Z (k w : Z) :
  0 <= k -> 0 < w ->
  (jsRem (inject_Z k) (inject_Z w) == inject_Z (k mod w))%Q.
Proof.
  intros Hk Hw. unfold jsRem. rewrite toLong_div by assumption.
  rewrite Z.mod_eq by lia.
  unfold Zminus. rewrite inject_Z_plus, inject_Z_opp, inject_Z_mult. ring.
Qed.

Lemma sqrtLt_inject_Z (a r : Z) :
  sqrtLt (inject_Z a) (inject_Z r) = (0 <? r) && (a <? r * r).
Proof.
  unfold sqrtLt. rewrite <- inject_Z_mult.
  change 0%Q with (inject_Z 0). now rewrite !Qltb_inject_Z.
Qed.

Lemma sqrtLt_comp (a a' b b' : Q) :
  (a == a')%Q -> (b == b')%Q -> sqrtLt a b = sqrtLt a' b'.
Proof.
  intros Ha Hb. unfold sqrtLt. f_equal.
  - now apply Qltb_comp.
  - apply Qltb_comp; [assumption|]. now rewrite Hb.
Qed.

#[local] Instance Qltb_Proper : Proper (Qeq ==> Qeq ==> eq) Qltb.
Proof. intros a a' Ha b b' Hb. now apply Qltb_comp. Qed.

#[local] Instance sqrtLt_Proper : Proper (Qeq ==> Qeq ==> eq) sqrtLt.
Proof. intros a a' Ha b b' Hb. now apply sqrtLt_comp. Qed.

Lemma mapi_from_map_range {T U : Type} (f : Z -> T -> U) (g : Z -> T)
  (start : Z) (n : nat) :
  mapi_from f start (map g (range start n))
  = map (fun k => f k (g k)) (range start n).
Proof.
  revert start. induction n as [|n IH]; intros start; simpl; [reflexivity|].
  now rewrite IH.
Qed.

Lemma mapi_tabulate (f : Z -> Pixel -> Pixel) (w h : Z)
  (g : Z -> Z -> Pixel) :
  mapi f (tabulate w h g) = tabulate w h (fun x y => f (y * w + x) (g x y)).
Proof.
  unfold mapi, tabulate. rewrite mapi_from_map_range.
  apply map_ext_in. intros k Hk. apply in_range in Hk. unfold area in Hk.
  destruct (Z_le_gt_dec w 0) as [Hw|Hw].
  { replace (Z.to_nat w) with 0%nat in Hk by lia. simpl in Hk. lia. }
  destruct (index_split w k) as (_ & _ & Hs); try lia.
  now rewrite Hs.
Qed.

Lemma half_even (r : Z) : (inject_Z (2 * r) / 2 == inject_Z r)%Q.
Proof. rewrite inject_Z_mult. field. Qed.

(** ** Erasing *)

Lemma Qltb_quarter (a b : Z) :
  Qltb (inject_Z a * (1 # 4)) (inject_Z b * (1 # 4)) = (a <? b).
Proof.
  rewrite <- Qltb_inject_Z.
  destruct (Qltb (inject_Z a) (inject_Z b)) eqn:E.
  - apply Qltb_lt. apply Qltb_lt in E. apply Qmult_lt_r; [reflexivity|exact E].
  - destruct (Qltb (_ * _) _) eqn:E'; [|reflexivity].
    apply Qltb_lt in E'. apply Qmult_lt_r in E'; [|reflexivity].
    apply Qltb_lt in E'. congruence.
Qed.

(** Four times the squared distance of column [lx], row [ly] of a window
    of side [n] from the centre of the window. *)
Lemma window_distance (n lx ly : Z) :
  ((inject_Z lx - inject_Z n / 2) ^ 2 + (inject_Z ly - inject_Z n / 2) ^ 2
   == inject_Z ((2 * lx - n) * (2 * lx - n) + (2 * ly - n) * (2 * ly - n))
      * (1 # 4))%Q.
Proof.
  unfold Zminus.
  rewrite !inject_Z_plus, !inject_Z_mult, !inject_Z_plus, !inject_Z_opp,
    !inject_Z_mult.
  change (inject_Z 2) with 2%Q. field.
Qed.

Lemma window_radius (n : Z) :
  (inject_Z n / 2 * (inject_Z n / 2) == inject_Z (n * n) * (1 # 4))%Q.
Proof. rewrite inject_Z_mult. field. Qed.

Lemma Qltb_0_half (n : Z) : 1 <= n -> Qltb 0 (inject_Z n / 2) = true.
Proof.
  intros Hn. apply Qltb_lt. apply Qlt_shift_div_l; [reflexivity|].
  rewrite Qmult_0_l. change 0%Q with (inject_Z 0). rewrite <- Zlt_Qlt. lia.
Qed.

(** The tests of the loop body for a brush size that is a whole number:
    [k] is the index of column [lx], row [ly] of the window. *)
Lemma eraseAt_integral (sel : Rect) (s : Renderer) (brushx brushy : Q)
  (n lx ly : Z) (p : Pixel) :
  1 <= n -> 0 <= lx < n -> 0 <= ly < n ->
  eraseAt sel s brushx brushy (inject_Z n) (ly * n + lx) p
  = if Qltb (leftEdge sel) (inject_Z lx - inject_Z n / 2 + brushx)
       && Qltb (inject_Z lx - inject_Z n / 2 + brushx) (rightEdge sel s)
       && (Qltb (topEdge sel) (inject_Z ly - inject_Z n / 2 + brushy)
           && Qltb (inject_Z ly - inject_Z n / 2 + brushy) (bottomEdge sel s))
       && ((2 * lx - n) * (2 * lx - n) + (2 * ly - n) * (2 * ly - n) <? n * n)
    then setAlpha 0 p else p.
Proof.
  intros Hn Hlx Hly. unfold eraseAt. cbv zeta.
  assert (0 <= ly * n + lx) as Hk by nia.
  rewrite Qfloor_div by lia.
  rewrite index_row by lia.
  assert (jsRem (inject_Z (ly * n + lx)) (inject_Z n) == inject_Z lx)%Q as Hx
    by (rewrite jsRem_inject_Z by lia; now rewrite index_col by lia).
  rewrite Hx.
  destruct (Qltb (leftEdge sel) _ && Qltb _ (rightEdge sel s)
            && (Qltb (topEdge sel) _ && Qltb _ (bottomEdge sel s)));
    simpl negb; cbv iota; [|reflexivity].
  rewrite Hx. unfold sqrtLt.
  rewrite window_distance, window_radius, Qltb_quarter, Qltb_0_half by lia.
  reflexivity.
Qed.

Lemma width_raster (w h : Z) (f : Z -> Z -> Pixel) :
  ImageData.width (raster w h f) = w.
Proof. reflexivity. Qed.

Lemma height_raster (w h : Z) (f : Z -> Z -> Pixel) :
  ImageData.height (raster w h f) = h.
Proof. reflexivity. Qed.

Section Erase.
Context {platform : Platform}.

(** The window of [erasePoint] and what is written back. *)
Lemma erasePoint_eq (s : Renderer) (sel : Rect) (brushx brushy brushSize : Q) :
  selectionOverlay s = Some sel ->
  toLong brushSize <> 0 ->
  let sx := toLong (brushx - brushSize / 2) in
  let sy := toLong (brushy - brushSize / 2) in
  let w := Z.abs (toLong brushSize) in
  let x0 := if toLong brushSize <? 0 then sx + toLong brushSize else sx in
  let y0 := if toLong brushSize <? 0 then sy + toLong brushSize else sy in
  erasePoint brushx brushy brushSize s
  = Ok (set_baseImageLayer
          (putImageData (baseImageLayer s)
             (asStored
                (raster w w
                   (fun x y =>
                      eraseAt sel s brushx brushy brushSize (y * w + x)
                              (pixelAt (baseImageLayer s) (x0 + x) (y0 + y)))))
             sx sy) s).
Proof.
  intros Hsel Hside. cbv zeta. unfold erasePoint, getContext. rewrite Hsel.
  unfold getImageData, bind.
  replace (toLong brushSize =? 0) with false
    by (symmetry; now apply Z.eqb_neq).
  cbn [orb]. unfold region. cbv zeta. unfold raster at 1. simpl.
  rewrite mapi_tabulate. reflexivity.
Qed.

Lemma asStored_raster (w h : Z) (f : Z -> Z -> Pixel) :
  asStored (raster w h f) = raster w h (fun x y => stored (f x y)).
Proof.
  unfold asStored, raster, tabulate. cbn [ImageData.width ImageData.height
    ImageData.data]. now rewrite map_map.
Qed.

(** The bounds of the loop are those of [erasable] when the selection
    bottom compares with the output canvas height as it does with the
    image height. *)
Lemma edges_erasable (sel : Rect) (s : Renderer) (x y : Q) :
  Qltb (Rect.y sel + Rect.height sel) (inject_Z (canvasHeight s))
  = Qltb (Rect.y sel + Rect.height sel) (inject_Z (height s)) ->
  Qltb (leftEdge sel) x && Qltb x (rightEdge sel s)
  && (Qltb (topEdge sel) y && Qltb y (bottomEdge sel s))
  = erasable sel (width s) (height s) x y.
Proof.
  intros Hbottom.
  unfold erasable, leftEdge, rightEdge, topEdge, bottomEdge. cbv zeta.
  rewrite Hbottom. unfold Qltb.
  destruct (Qle_bool (Rect.x sel) 0), (Qle_bool (Rect.y sel) 0),
    (Qle_bool (inject_Z (width s)) (Rect.x sel + Rect.width sel)),
    (Qle_bool (inject_Z (height s)) (Rect.y sel + Rect.height sel));
    simpl negb; cbv iota; now rewrite <- !andb_assoc.
Qed.

(** A pixel is under a brush of whole-number size [n] centred on the
    window of origin [(ox, oy)] when four times its squared distance from
    the centre is below [n * n]; such a pixel is in the window. *)
Lemma underBrush_window (ox oy n px py : Z) :
  1 <= n ->
  underBrush (inject_Z ox + inject_Z n / 2) (inject_Z oy + inject_Z n / 2)
             (inject_Z n) px py
  = ((2 * (px - ox) - n) * (2 * (px - ox) - n)
     + (2 * (py - oy) - n) * (2 * (py - oy) - n) <? n * n).
Proof.
  intros Hn. unfold underBrush.
  replace (Qltb 0 (inject_Z n)) with true
    by (symmetry; change 0%Q with (inject_Z 0); rewrite Qltb_inject_Z;
        apply Z.ltb_lt; lia).
  cbn [andb].
  rewrite <- Qltb_quarter. apply Qltb_comp.
  - rewrite <- window_distance. unfold Zminus.
    rewrite !inject_Z_plus, !inject_Z_opp. ring.
  - rewrite <- window_radius. ring.
Qed.

Lemma under_brush_inside (n lx ly : Z) :
  1 <= n ->
  (2 * lx - n) * (2 * lx - n) + (2 * ly - n) * (2 * ly - n) < n * n ->
  0 <= lx < n /\ 0 <= ly < n.
Proof.
  intros Hn H.
  pose proof (Z.square_nonneg (2 * lx - n)) as Hx.
  pose proof (Z.square_nonneg (2 * ly - n)) as Hy.
  assert (forall a, a * a < n * n -> - n < a < n) as Hsq.
  { intros a Ha. split.
    - destruct (Z_lt_le_dec (- n) a) as [?|Hle]; [assumption|].
      assert (n * n <= a * a) by nia. lia.
    - destruct (Z_lt_le_dec a n) as [?|Hle]; [assumption|].
      assert (n * n <= a * a) by nia. lia. }
  assert (- n < 2 * lx - n < n) by (apply Hsq; lia).
  assert (- n < 2 * ly - n < n) by (apply Hsq; lia).
  lia.
Qed.


Lemma heldb_held (c : Canvas) : heldb c = true -> held c.
Proof.
  unfold heldb, held. rewrite forallb_forall, Forall_forall.
  intros H p Hp. apply Pixel_eqb_eq. now apply H.
Qed.
End Erase.

Ltac refute_at H sel px py :=
  let s' := fresh "s'" in
  let Hok := fresh "Hok" in
  let Hpx := fresh "Hpx" in
  destruct (H sel ltac:(vm_compute; reflexivity)) as (s' & Hok & Hpx);
  match type of Hok with
  | ?call = _ =>
      let v := eval vm_compute in call in
      change call with v in Hok
  end;
  injection Hok as <-;
  specialize (Hpx px py ltac:(vm_compute; split; [discriminate | reflexivity])
                  ltac:(vm_compute; split; [discriminate | reflexivity]));
  vm_compute in Hpx; discriminate Hpx.

(** The claim C3 fails in four ways.  With a selection that starts two
    units left of the image, [erasePoint(4, 4, 4)] erases the pixel
    (4, 4), which is less than 10 units from the left edge of the
    selection, an edge that does not coincide with the left edge of the
    image.  With the whole image selected, [erasePoint(4, 4, 3)] leaves
    the pixel (5, 5) alone although it is nearer than 1.5 to the brush
    centre, [erasePoint(4, 4, 2.5)] leaves the pixel (4, 4) under the
    brush centre alone, and [erasePoint(4, 4, 0.5)] throws. *)
Lemma erasePoint_departs_from_the_claim :
  ~ @erasesAsSpecified plainPlatform overhang 4 4 4 /\
  ~ @erasesAsSpecified plainPlatform wholeImage 4 4 3 /\
  ~ @erasesAsSpecified plainPlatform wholeImage 4 4 (5 # 2) /\
  ~ @erasesAsSpecified plainPlatform wholeImage 4 4 (1 # 2).
Proof.
  split; [|split; [|split]]; intros H.
  - refute_at H {| Rect.x := -(2); Rect.y := 0;
                   Rect.width := 10; Rect.height := 8 |} 4 4.
  - refute_at H {| Rect.x := 0; Rect.y := 0;
                   Rect.width := 8; Rect.height := 8 |} 5 5.
  - refute_at H {| Rect.x := 0; Rect.y := 0;
                   Rect.width := 8; Rect.height := 8 |} 4 4.
  - destruct (H {| Rect.x := 0; Rect.y := 0;
                   Rect.width := 8; Rect.height := 8 |}
                ltac:(vm_compute; reflexivity)) as (s' & Hok & _).
    vm_compute in Hok. discriminate Hok.
Qed.

(** In an output canvas higher than the image the bottom margin is kept
    although the selection ends on the bottom edge of the image:
    [bottomEdge] compares with the height of the output canvas where
    [rightEdge] compares with the width of the image. *)
Lemma erasePoint_bottom_margin_follows_viewport :
  selectionOverlay tallViewport
  = Some {| Rect.x := 0; Rect.y := 0; Rect.width := 8; Rect.height := 8 |} /\
  height tallViewport = 8 /\ canvasHeight tallViewport = 20 /\
  underBrush 4 4 4 4 4 = true /\
  erasable {| Rect.x := 0; Rect.y := 0; Rect.width := 8; Rect.height := 8 |}
           8 8 4%Q 4%Q = true /\
  pixelAt (baseImageLayer (returned (@erasePoint plainPlatform 4 4 4
                                       tallViewport)
                                    tallViewport)) 4 4 = white /\
  pixelAt (baseImageLayer (returned (@erasePoint plainPlatform 4 4 4
                                       wholeImage)
                                    wholeImage)) 4 4 = transparentBlack.
Proof. repeat split; vm_compute; reflexivity. Qed.

Section ErasePoint.
Context {platform : Platform}.

(** C3, amended. With a selection set, [erasePoint] with a brush size
    that is a whole number [n >= 1] reads the window of [n] x [n] pixels
    whose origin is [(brushx - n / 2, brushy - n / 2)] with the fractions
    dropped, and sets to 0 the alpha of exactly those pixels of the base
    layer that are nearer than [n / 2] to the centre of that window and
    whose position, moved by what the brush centre is off the window
    centre, is strictly inside the selection shrunk by 10 on each edge,
    the margin being dropped on an edge of the selection that lies on or
    beyond that edge of the image; every other pixel is left as it was.
    Where [brushx - n / 2] and [brushy - n / 2] are whole numbers the
    window centre is the brush centre.  For the bottom edge this is
    stated when the selection bottom compares with the height of the
    output canvas as it does with the height of the image. *)
Theorem erasePoint_erases_inside_margins
  (s : Renderer) (sel : Rect) (brushx brushy : Q) (n : Z) :
  selectionOverlay s = Some sel ->
  wf (baseImageLayer s) ->
  held (baseImageLayer s) ->
  1 <= n ->
  Qltb (Rect.y sel + Rect.height sel) (inject_Z (canvasHeight s))
  = Qltb (Rect.y sel + Rect.height sel) (inject_Z (height s)) ->
  let ox := toLong (brushx - inject_Z n / 2) in
  let oy := toLong (brushy - inject_Z n / 2) in
  let centrex := (inject_Z ox + inject_Z n / 2)%Q in
  let centrey := (inject_Z oy + inject_Z n / 2)%Q in
  exists s',
    erasePoint brushx brushy (inject_Z n) s = Ok s' /\
    s' = set_baseImageLayer (baseImageLayer s') s /\
    ImageData.width (baseImageLayer s') = ImageData.width (baseImageLayer s) /\
    ImageData.height (baseImageLayer s') = ImageData.height (baseImageLayer s) /\
    forall px py,
      0 <= px < ImageData.width (baseImageLayer s) ->
      0 <= py < ImageData.height (baseImageLayer s) ->
      if erasable sel (width s) (height s)
                  (inject_Z px + (brushx - centrex))
                  (inject_Z py + (brushy - centrey))
         && underBrush centrex centrey (inject_Z n) px py
      then A (pixelAt (baseImageLayer s') px py) = 0
      else pixelAt (baseImageLayer s') px py
           = pixelAt (baseImageLayer s) px py.
Proof.
  intros Hsel Hwf Hheld Hn Hbottom ox oy centrex centrey.
  assert (toLong (inject_Z n) <> 0) as Hside
    by (rewrite toLong_inject_Z; lia).
  pose proof (erasePoint_eq s sel brushx brushy (inject_Z n) Hsel Hside)
    as Heq.
  cbv zeta in Heq. rewrite toLong_inject_Z in Heq. fold ox oy in Heq.
  replace (n <? 0) with false in Heq by (symmetry; apply Z.ltb_ge; lia).
  rewrite Z.abs_eq in Heq by lia. rewrite asStored_raster in Heq.
  eexists. split; [exact Heq|].
  split; [reflexivity|]. split; [reflexivity|]. split; [reflexivity|].
  intros px py Hpx Hpy. unfold set_baseImageLayer. cbn [baseImageLayer].
  unfold putImageData. rewrite pixelAt_raster.
  replace (inside _ _ px py) with true by (symmetry; now apply inside_true).
  rewrite width_raster, height_raster.
  unfold centrex, centrey. rewrite underBrush_window by assumption.
  set (lx := px - ox). set (ly := py - oy).
  destruct (inside n n lx ly) eqn:Ein.
  - apply inside_true in Ein. destruct Ein as (Hlx & Hly).
    rewrite pixelAt_raster.
    replace (inside _ _ _ _) with true by (symmetry; now apply inside_true).
    rewrite eraseAt_integral by assumption.
    replace (ox + lx) with px by (unfold lx; lia).
    replace (oy + ly) with py by (unfold ly; lia).
    rewrite (edges_erasable sel s _ _ Hbottom).
    assert (inject_Z lx - inject_Z n / 2 + brushx
            == inject_Z px + (brushx - (inject_Z ox + inject_Z n / 2)))%Q as Ex
      by (unfold lx, Zminus; rewrite inject_Z_plus, inject_Z_opp; ring).
    assert (inject_Z ly - inject_Z n / 2 + brushy
            == inject_Z py + (brushy - (inject_Z oy + inject_Z n / 2)))%Q as Ey
      by (unfold ly, Zminus; rewrite inject_Z_plus, inject_Z_opp; ring).
    assert (erasable sel (width s) (height s)
              (inject_Z lx - inject_Z n / 2 + brushx)
              (inject_Z ly - inject_Z n / 2 + brushy)
            = erasable sel (width s) (height s)
                (inject_Z px + (brushx - (inject_Z ox + inject_Z n / 2)))
                (inject_Z py + (brushy - (inject_Z oy + inject_Z n / 2))))
      as -> by (unfold erasable; cbv zeta; now rewrite Ex, Ey).
    destruct (erasable _ _ _ _ _ && _).
    + now rewrite stored_alpha.
    + apply (pixelAt_inside_Forall (fun p => stored p = p));
        assumption.
  - apply inside_false in Ein.
    destruct ((2 * lx - n) * (2 * lx - n) + (2 * ly - n) * (2 * ly - n)
              <? n * n) eqn:Eu.
    + apply Z.ltb_lt in Eu. apply under_brush_inside in Eu; lia.
    + now rewrite andb_false_r.
Qed.
End ErasePoint.

Lemma erasePoint_erases_inside_margins_witness :
  exists s',
    @erasePoint plainPlatform 4 4 (inject_Z 4) overhang = Ok s' /\
    A (pixelAt (baseImageLayer s') 4 4) = 0.
Proof.
  assert (selectionOverlay overhang
          = Some {| Rect.x := -(2); Rect.y := 0;
                    Rect.width := 10; Rect.height := 8 |}) as Hsel
    by (vm_compute; reflexivity).
  assert (wf (baseImageLayer overhang)) as Hwf
    by (apply wfb_wf; vm_compute; reflexivity).
  assert (@held plainPlatform (baseImageLayer overhang)) as Hheld
    by (apply heldb_held; vm_compute; reflexivity).
  assert (1 <= 4) as Hn by lia.
  destruct (@erasePoint_erases_inside_margins plainPlatform overhang _ 4 4 4
              Hsel Hwf Hheld Hn)
    as (s' & Hok & _ & _ & _ & Hpx).
  - vm_compute. reflexivity.
  - exists s'. split; [exact Hok|].
    specialize (Hpx 4 4
                  ltac:(vm_compute; split; [discriminate | reflexivity])
                  ltac:(vm_compute; split; [discriminate | reflexivity])).
    match type of Hpx with
    | if ?c then _ else _ =>
        assert (c = true) as Hc by (vm_compute; reflexivity);
        rewrite Hc in Hpx
    end.
    exact Hpx.
Defined.

(** ** Smudging *)

Lemma toLong_nonneg (q : Q) : (0 < q)%Q -> 0 <= toLong q.
Proof.
  intros Hq. unfold toLong.
  replace (Qle_bool 0 q) with true
    by (symmetry; apply Qle_bool_iff; now apply Qlt_le_weak).
  change 0 with (Qfloor 0). apply Qfloor_resp_le. now apply Qlt_le_weak.
Qed.

Lemma toLong_positive (q : Q) : (1 <= q)%Q -> 1 <= toLong q.
Proof.
  intros Hq. unfold toLong.
  replace (Qle_bool 0 q) with true
    by (symmetry; apply Qle_bool_iff; apply Qle_trans with 1%Q;
        [discriminate | assumption]).
  change 1 with (Qfloor 1). now apply Qfloor_resp_le.
Qed.

(** The test of the loops is the test on the squared distance. *)
Lemma inBrush_withinRadius (brushSize : Q) (x y : Z) :
  (0 <= brushSize)%Q ->
  inBrush brushSize x y
  = withinRadius (brushSize / 2) (brushSize / 2) (brushSize / 2) x y.
Proof.
  intros Hb. unfold inBrush, sqrtLe, withinRadius.
  replace (Qle_bool 0 (brushSize / 2)) with true.
  - cbn [andb]. apply Qle_bool_comp; simpl; ring.
  - symmetry. apply Qle_bool_iff. apply Qle_shift_div_l; [reflexivity|].
    now rewrite Qmult_0_l.
Qed.

Lemma Qplus_inject_Z (a b : Z) : (inject_Z a + inject_Z b)%Q = inject_Z (a + b).
Proof. unfold Qplus, inject_Z. simpl. now rewrite !Z.mul_1_r. Qed.

Lemma fold_totals (brushSize : Q) (imageData : ImageData) (l : list Z)
  (r g b n : Z) :
  let w := ImageData.width imageData in
  let under :=
    filter (fun k => withinRadius (brushSize / 2) (brushSize / 2)
                       (brushSize / 2) (k mod w) (k / w)) l in
  let pixels := map (fun k => pixelAt imageData (k mod w) (k / w)) under in
  (0 <= brushSize)%Q ->
  fold_left
    (fun t k =>
       let x := k mod w in
       let y := k / w in
       if inBrush brushSize x y then
         let p := pixelAt imageData x y in
         mkTotals (totalRed t + inject_Z (R p)) (totalGreen t + inject_Z (G p))
                  (totalBlue t + inject_Z (B p)) (count t + 1)
       else t) l
    (mkTotals (inject_Z r) (inject_Z g) (inject_Z b) (inject_Z n))
  = mkTotals
      (inject_Z (fold_left (fun t p => t + R p) pixels r))
      (inject_Z (fold_left (fun t p => t + G p) pixels g))
      (inject_Z (fold_left (fun t p => t + B p) pixels b))
      (inject_Z (n + Z.of_nat (length pixels))).
Proof.
  cbv zeta. intros Hb. revert r g b n.
  induction l as [|k l IH]; intros r g b n; simpl.
  - now rewrite Z.add_0_r.
  - rewrite (inBrush_withinRadius brushSize _ _ Hb).
    destruct (withinRadius _ _ _ _ _); simpl; [|apply IH].
    change 1%Q with (inject_Z 1). rewrite !Qplus_inject_Z, IH.
    f_equal. f_equal. rewrite ?Zpos_P_of_succ_nat. lia.
Qed.

(** The totals of the first pair of loops are the sums over the pixels
    under the brush. *)
Lemma accumulate_totals (brushSize : Q) (imageData : ImageData) :
  (0 <= brushSize)%Q ->
  let pixels := brushPixels brushSize imageData in
  accumulate brushSize imageData
  = mkTotals (inject_Z (total R pixels)) (inject_Z (total G pixels))
             (inject_Z (total B pixels))
             (inject_Z (Z.of_nat (length pixels))).
Proof.
  intros Hb. cbv zeta. unfold accumulate, brushPixels, total.
  change (mkTotals 0 0 0 0)
    with (mkTotals (inject_Z 0) (inject_Z 0) (inject_Z 0) (inject_Z 0)).
  now rewrite fold_totals.
Qed.


Section Smudge.
Context {platform : Platform}.

Lemma wf_smudged (brushSize brushOpacity x y : Q) (c : Canvas) :
  wf c -> wf (smudged brushSize brushOpacity c x y).
Proof. intros (Hw & Hh & _). now apply wf_raster. Qed.


(** One stop of the brush does what [smudged] says. *)
Lemma smudgeAt_smudged (brushSize brushOpacity x y : Q) (c : Canvas) :
  (1 <= brushSize)%Q -> wf c -> held c ->
  smudgeAt brushSize brushOpacity c x y
  = Ok (smudged brushSize brushOpacity c x y).
Proof.
  intros Hb Hwf Hheld.
  pose proof (toLong_positive brushSize Hb) as Hside.
  assert (0 <= brushSize)%Q as Hb0
    by (apply Qle_trans with 1%Q; [discriminate | assumption]).
  unfold smudgeAt, getImageData, bind. cbv zeta.
  replace (toLong brushSize =? 0) with false
    by (symmetry; apply Z.eqb_neq; lia).
  cbn [orb]. f_equal. rewrite accumulate_totals by assumption. cbv zeta.
  cbn [totalRed totalGreen totalBlue count].
  unfold smudged. cbv zeta.
  set (n := toLong brushSize) in *.
  set (ox := toLong (x - brushSize / 2)).
  set (oy := toLong (y - brushSize / 2)).
  set (window := region c ox oy n n).
  assert (ImageData.width window = n /\ ImageData.height window = n)
    as (Hww & Hwh)
    by (unfold window, region, raster; cbn [ImageData.width
          ImageData.height]; rewrite Z.abs_eq by lia; tauto).
  rewrite Hww, Hwh, asStored_raster.
  unfold putImageData. apply raster_ext. intros px py Hpx Hpy.
  rewrite width_raster, height_raster.
  destruct (inside n n (px - ox) (py - oy)) eqn:Ein; [|reflexivity].
  rewrite pixelAt_raster, Ein.
  assert (pixelAt window (px - ox) (py - oy) = pixelAt c px py) as ->.
  { unfold window, region.
    replace (n <? 0) with false by (symmetry; apply Z.ltb_ge; lia).
    rewrite Z.abs_eq by lia. rewrite pixelAt_raster, Ein.
    f_equal; lia. }
  rewrite inBrush_withinRadius by assumption.
  cbn [andb]. destruct (withinRadius _ _ _ _ _); [reflexivity|].
  now apply (pixelAt_inside_Forall (fun p => stored p = p)).
Qed.





Lemma fold_thrown {T : Type} (k : Z -> T -> Result T) (l : list Z)
  (message : string) :
  fold_left (fun r i => let* v := r in k i v) l (Throw message)
  = Throw message.
Proof. induction l as [|i l IH]; simpl; [reflexivity | exact IH]. Qed.

(** With a brush size whose whole part is 0, the first stop throws. *)
Lemma smudgeLine_empty_window
  (s : Renderer) (x1 y1 x2 y2 brushSize brushOpacity : Q) :
  toLong brushSize = 0 ->
  steps (sqrt ((x2 - x1) * (x2 - x1) + (y2 - y1) * (y2 - y1))) <> [] ->
  smudgeLine x1 y1 x2 y2 brushSize brushOpacity s = Throw "IndexSizeError".
Proof.
  intros Hside Hsteps. unfold smudgeLine, getContext. cbv zeta.
  destruct (steps _) as [|i l]; [contradiction|].
  cbn [fold_left bind]. unfold smudgeAt at 2. unfold getImageData.
  rewrite Hside. cbn [Z.eqb orb bind].
  rewrite (fold_thrown
             (fun i context =>
                smudgeAt brushSize (Double.round brushOpacity) context
                  (x1 + inject_Z i * ((x2 - x1) / _))
                  (y1 + inject_Z i * ((y2 - y1) / _)))).
  reflexivity.
Qed.

End Smudge.



(** ** More on the history *)

Lemma sameHistory_refl (s : Renderer) : sameHistory s s.
Proof. repeat split. Qed.

Ltac frame_history :=
  unfold sameHistory;
  repeat match goal with
    | |- context [match ?x with _ => _ end] => destruct x
    end;
  repeat split.

Lemma setBaseImage_is_snapshot (image : ImageData) (b : bool)
  (s : Renderer) :
  exists s', sameHistory s s' /\ setBaseImage image b s = snapshot s'.
Proof.
  unfold setBaseImage, getContext.
  eexists. split; [|reflexivity].
  match goal with |- sameHistory _ (resetView ?t) =>
    destruct (resetView_sameHistory t) as (H1 & H2 & H3)
  end.
  unfold sameHistory. rewrite <- H1, <- H2, <- H3.
  destruct b; repeat split.
Qed.

Ltac unfold_calls :=
  repeat first
    [ progress unfold addReferenceImage
    | progress unfold setReferenceImage
    | progress unfold clearReferenceImage
    | progress unfold setOverlayImage
    | progress unfold clearOverlayImage
    | progress unfold setEditImage
    | progress unfold drawPoint
    | progress unfold drawLine
    | progress unfold copyEditImageFromBaseImage
    | progress unfold resetView
    | progress unfold getContext ].

Section HistoryCases.
Context {platform : Platform}.

(** What a call does to the history: nothing, or what [undo], [redo],
    [clearRedoStack] or a [snapshot()] does. *)
Lemma after_history_cases (c : Call) (s : Renderer) :
  sameHistory s (after c s) \/
  (exists allowRedo, after c s = undo allowRedo s) \/
  after c s = redo s \/
  after c s = clearRedoStack s \/
  exists s', sameHistory s s' /\ after c s = snapshot s'.
Proof.
  destruct c; unfold after, perform;
    try (left; unfold erasePoint, getContext, bind;
         destruct (selectionOverlay s);
         [destruct (getImageData _ _ _ _ _)|]; repeat split; fail);
    try (left; unfold smudgeLine, getContext, bind;
         destruct (fold_left _ _ _); repeat split; fail);
    try (left; unfold_calls; frame_history; fail).
  - right; left. eexists. reflexivity.
  - right; right; left. reflexivity.
  - right; right; right; left. reflexivity.
  - right; right; right; right. exists s. split; [apply sameHistory_refl|].
    reflexivity.
  - right; right; right; right. apply setBaseImage_is_snapshot.
  - right; right; right; right. unfold commitSelection, getContext.
    eexists. split; [|reflexivity].
    unfold setEditImage, getContext. frame_history.
  - unfold expandToOverlay, getContext, bind.
    destruct (selectionOverlay s) as [sel|]; [|left; apply sameHistory_refl].
    cbv zeta.
    destruct (drawCanvas _ _ _ _) as [newCanvas|];
      [|left; apply sameHistory_refl].
    right; right; right; right.
    match goal with |- context [setBaseImage ?i ?b ?t] =>
      destruct (setBaseImage_is_snapshot i b t) as (s' & Hs' & Heq)
    end.
    exists s'. split; [exact Hs' | exact Heq].
Qed.
End HistoryCases.

Lemma historyBounded_same (s s' : Renderer) :
  sameHistory s s' -> historyBounded s -> historyBounded s'.
Proof. unfold historyBounded. now intros (<- & <- & _). Qed.

Lemma historyBounded_undo (allowRedo : bool) (s : Renderer) :
  historyBounded s -> historyBounded (undo allowRedo s).
Proof.
  intros H. unfold undo.
  destruct (pop (undoStack s)) as [[imageData rest]|] eqn:Hpop; [|exact H].
  destruct (currentSnapshot s); [|exact H].
  apply pop_some in Hpop. unfold historyBounded in *.
  rewrite Hpop, length_app in H. simpl in H.
  unfold getContext, push. destruct allowRedo; simpl;
    rewrite ?length_app; simpl; lia.
Qed.

Lemma historyBounded_redo (s : Renderer) :
  historyBounded s -> historyBounded (redo s).
Proof.
  intros H. unfold redo.
  destruct (pop (redoStack s)) as [[imageData rest]|] eqn:Hpop; [|exact H].
  destruct (currentSnapshot s); [|exact H].
  apply pop_some in Hpop. unfold historyBounded in *.
  rewrite Hpop, length_app in H. simpl in H.
  unfold getContext, push. simpl. rewrite length_app. simpl. lia.
Qed.

Lemma length_tail {T : Type} (l : list T) :
  length (tl l) = Nat.pred (length l).
Proof. now destruct l. Qed.

Lemma snapshot_stacks (s : Renderer) :
  match currentSnapshot s with
  | None =>
      undoStack (snapshot s) = undoStack s /\
      redoStack (snapshot s) = redoStack s
  | Some previous =>
      undoStack (snapshot s) =
        (if (50 <? length (undoStack s ++ [previous]))%nat
         then tl (undoStack s ++ [previous])
         else undoStack s ++ [previous]) /\
      redoStack (snapshot s) = []
  end.
Proof.
  unfold snapshot, getContext.
  destruct (currentSnapshot s) as [previous|]; simpl; [|split; reflexivity].
  unfold push, shift, maxSnapshots.
  destruct (redoStack s) as [|r rs] eqn:Hredo; simpl;
    destruct (50 <? length (undoStack s ++ [previous]))%nat; simpl;
    rewrite ?Hredo; split; reflexivity.
Qed.

Lemma historyBounded_snapshot (s : Renderer) :
  historyBounded s -> historyBounded (snapshot s).
Proof.
  intros H. unfold historyBounded in *.
  pose proof (snapshot_stacks s) as Hs.
  destruct (currentSnapshot s) as [previous|].
  - destruct Hs as (-> & ->). unfold maxSnapshots in *.
    destruct (50 <? length (undoStack s ++ [previous]))%nat eqn:E.
    + rewrite length_tail, length_app. simpl. lia.
    + apply Nat.ltb_ge in E. simpl. lia.
  - destruct Hs as (-> & ->). exact H.
Qed.

Lemma undoHasCurrent_same (s s' : Renderer) :
  sameHistory s s' -> undoHasCurrent s -> undoHasCurrent s'.
Proof. unfold undoHasCurrent. now intros (<- & _ & <-). Qed.

Section HistoryInvariants.
Context {platform : Platform}.

(** X1. Whatever is called on a renderer, its undo and redo stacks never
    hold more than 50 snapshots together. *)
Theorem history_never_exceeds_fifty (s : Renderer) :
  reachable s ->
  (length (undoStack s) + length (redoStack s) <= 50)%nat.
Proof.
  induction 1 as [cw ch|c s _ IH]; [simpl; lia|].
  change (historyBounded (after c s)). change (historyBounded s) in IH.
  destruct (after_history_cases c s)
    as [H|[(b & ->)|[->|[->|(s' & Hs' & ->)]]]].
  - exact (historyBounded_same _ _ H IH).
  - now apply historyBounded_undo.
  - now apply historyBounded_redo.
  - unfold historyBounded, clearRedoStack in *. simpl. lia.
  - apply historyBounded_snapshot. exact (historyBounded_same _ _ Hs' IH).
Qed.

Lemma reachable_undoHasCurrent (s : Renderer) :
  reachable s -> undoHasCurrent s.
Proof.
  induction 1 as [cw ch|c s _ IH]; [unfold undoHasCurrent; simpl; congruence|].
  destruct (after_history_cases c s)
    as [H|[(b & ->)|[->|[->|(s' & Hs' & ->)]]]].
  - exact (undoHasCurrent_same _ _ H IH).
  - unfold undo.
    destruct (pop (undoStack s)) as [[imageData rest]|]; [|exact IH].
    destruct (currentSnapshot s); [|exact IH].
    unfold undoHasCurrent, getContext. destruct b; simpl; congruence.
  - unfold redo.
    destruct (pop (redoStack s)) as [[imageData rest]|]; [|exact IH].
    destruct (currentSnapshot s); [|exact IH].
    unfold undoHasCurrent, getContext. simpl. congruence.
  - exact IH.
  - destruct (snapshot_some s') as (imageData & Hc).
    unfold undoHasCurrent. rewrite Hc. congruence.
Qed.

(** X2. In every reachable state a non-empty undo stack comes with a
    current snapshot, so [undo] on a non-empty undo stack does act: the
    newest entry becomes the current snapshot and is written into the
    cleared base layer, and the previous current snapshot goes on the redo
    stack exactly when redo is allowed. *)
Theorem undo_on_nonempty_stack_restores
  (s : Renderer) (imageData : ImageData) (rest : list ImageData) :
  reachable s ->
  undoStack s = rest ++ [imageData] ->
  exists current,
    currentSnapshot s = Some current /\
    forall allowRedo,
      currentSnapshot (undo allowRedo s) = Some imageData /\
      undoStack (undo allowRedo s) = rest /\
      redoStack (undo allowRedo s)
      = (if allowRedo then redoStack s ++ [current] else redoStack s) /\
      baseImageLayer (undo allowRedo s)
      = putImageData (clearRect (baseImageLayer s)) imageData 0 0.
Proof.
  intros Hs Hundo.
  pose proof (reachable_undoHasCurrent s Hs) as Hinv.
  unfold undoHasCurrent in Hinv.
  destruct (currentSnapshot s) as [current|] eqn:Hcur.
  - exists current. split; [reflexivity|]. intros allowRedo.
    unfold undo, getContext. rewrite Hundo.
    change (rest ++ [imageData]) with (push rest imageData).
    rewrite pop_push, Hcur. destruct allowRedo; simpl; repeat split.
  - exfalso. apply Hinv; [|reflexivity]. rewrite Hundo. now destruct rest.
Qed.
End HistoryInvariants.

Lemma history_never_exceeds_fifty_witness :
  (length (undoStack undone) + length (redoStack undone) <= 50)%nat.
Proof.
  exact (@history_never_exceeds_fifty plainPlatform undone reachable_undone).
Defined.

Lemma reachable_loaded2 : @reachable plainPlatform loaded2.
Proof.
  assert (@reachable plainPlatform loaded1) as H1.
  { apply (@reachable_ok plainPlatform (call_setBaseImage image2x2 true)
             (newRenderer 8 6)).
    - apply reachable_new.
    - unfold loaded1, perform. reflexivity. }
  apply (@reachable_ok plainPlatform (call_setBaseImage image3x1 true)
           loaded1 loaded2 H1).
  unfold loaded2, perform. reflexivity.
Qed.

Lemma undo_on_nonempty_stack_restores_witness :
  exists current, currentSnapshot loaded2 = Some current.
Proof.
  assert (undoStack loaded2 = [] ++ [image2x2]) as H
    by (vm_compute; reflexivity).
  destruct (@undo_on_nonempty_stack_restores plainPlatform loaded2 image2x2 []
              reachable_loaded2 H) as (current & Hc & _).
  exists current. exact Hc.
Defined.

(** X3. On the history, [undo] and [redo] undo each other: with something
    to undo, [undo()] then [redo()] leaves both stacks and the current
    snapshot as they were, and so does [redo()] then [undo()] with
    something to redo.  An [undo(false)] cannot be taken back: it leaves
    the redo stack as it was. *)
Theorem undo_and_redo_are_inverse_on_history (s : Renderer) :
  currentSnapshot s <> None ->
  (undoStack s <> [] -> sameHistory s (redo (undo true s))) /\
  (redoStack s <> [] -> sameHistory s (undo true (redo s))) /\
  redoStack (undo false s) = redoStack s.
Proof.
  intros Hcur. destruct (currentSnapshot s) as [current|] eqn:Hc;
    [clear Hcur|congruence].
  split; [|split].
  - intros Hundo. unfold undo.
    destruct (pop (undoStack s)) as [[imageData rest]|] eqn:Hpop;
      [|now apply pop_nil_iff in Hpop].
    apply pop_some in Hpop.
    rewrite Hc. unfold redo, getContext. simpl.
    rewrite pop_push. simpl. unfold sameHistory, push. simpl.
    rewrite Hpop, Hc. repeat split.
  - intros Hredo. unfold redo.
    destruct (pop (redoStack s)) as [[imageData rest]|] eqn:Hpop;
      [|now apply pop_nil_iff in Hpop].
    apply pop_some in Hpop.
    rewrite Hc. unfold undo, getContext. simpl.
    rewrite pop_push. simpl. unfold sameHistory, push. simpl.
    rewrite Hpop, Hc. repeat split.
  - unfold undo. rewrite Hc.
    destruct (pop (undoStack s)) as [[imageData rest]|]; reflexivity.
Qed.

Lemma undo_and_redo_are_inverse_on_history_witness :
  sameHistory loaded2 (redo (undo true loaded2)).
Proof.
  assert (currentSnapshot loaded2 <> None) as Hc by (lazy; discriminate).
  assert (undoStack loaded2 <> []) as Hu by (lazy; discriminate).
  exact (proj1 (undo_and_redo_are_inverse_on_history loaded2 Hc) Hu).
Defined.

(** ** Layer sizes *)

Lemma layersAgree_sizes (s : Renderer) :
  layersAgree s <->
  exists d, layerSizes s = (d, d, d, d).
Proof.
  unfold layersAgree, layerSizes, size. split.
  - intros (H1 & H2 & H3 & H4 & H5 & H6). eexists.
    rewrite H1, H2, H3, H4, H5, H6. reflexivity.
  - intros (d & H). injection H as H1 H2 H3 H4.
    rewrite <- H1 in H2, H3, H4.
    injection H2 as A1 A2. injection H3 as B1 B2. injection H4 as C1 C2.
    repeat split; assumption.
Qed.

Lemma snapshot_layers (s : Renderer) :
  layerSizes (snapshot s) = layerSizes s /\
  (width (snapshot s), height (snapshot s)) = (width s, height s).
Proof.
  unfold snapshot, getContext.
  destruct (currentSnapshot s); simpl; [|split; reflexivity].
  destruct (0 <? length (redoStack s))%nat; simpl;
    destruct (maxSnapshots <? _)%nat; split; reflexivity.
Qed.

Lemma resetView_layers (s : Renderer) :
  layerSizes (resetView s) = layerSizes s /\
  (width (resetView s), height (resetView s)) = (width s, height s).
Proof. unfold resetView. destruct (Qltb _ _); split; reflexivity. Qed.

Lemma setEditImage_layers (imageData : option ImageData) (s : Renderer) :
  layerSizes (setEditImage imageData s) = layerSizes s /\
  (width (setEditImage imageData s), height (setEditImage imageData s))
  = (width s, height s).
Proof.
  unfold setEditImage, getContext.
  destruct (selectionOverlay _); [|split; reflexivity].
  destruct imageData; split; reflexivity.
Qed.

Lemma setBaseImage_layers (image : ImageData) (b : bool) (s : Renderer) :
  layerSizes (setBaseImage image b s)
  = (size image, size image, size image, size image) /\
  (width (setBaseImage image b s), height (setBaseImage image b s))
  = size image.
Proof.
  unfold setBaseImage, getContext.
  match goal with |- context [snapshot ?t] =>
    destruct (snapshot_layers t) as (-> & ->)
  end.
  match goal with |- context [resetView ?t] =>
    destruct (resetView_layers t) as (-> & ->)
  end.
  destruct b; split; reflexivity.
Qed.

Section LayerSizes.
Context {platform : Platform}.

Lemma smudgeAt_cases (brushSize brushOpacity x y : Q) (c : Canvas) :
  smudgeAt brushSize brushOpacity c x y = Throw "IndexSizeError" \/
  exists c', smudgeAt brushSize brushOpacity c x y = Ok c' /\
             size c' = size c.
Proof.
  unfold smudgeAt, getImageData, bind.
  destruct (_ || _); [now left|].
  right. eexists. split; reflexivity.
Qed.

Lemma fold_smudgeAt_size (brushSize brushOpacity : Q) (f g : Z -> Q)
  (l : list Z) (c c' : Canvas) :
  fold_left
    (fun context i =>
       let* context := context in
       smudgeAt brushSize brushOpacity context (f i) (g i))
    l (Ok c) = Ok c' ->
  size c' = size c.
Proof.
  revert c. induction l as [|i l IH]; intros c; simpl.
  - intros H. injection H as <-. reflexivity.
  - destruct (smudgeAt_cases brushSize brushOpacity (f i) (g i) c)
      as [->|(c1 & -> & Hsize)].
    + rewrite (fold_thrown
                 (fun i context =>
                    smudgeAt brushSize brushOpacity context (f i) (g i))).
      discriminate.
    + intros H. apply IH in H. now rewrite H.
Qed.

Lemma after_layers (c : Call) (s : Renderer) :
  (layerSizes (after c s) = layerSizes s /\
   (width (after c s), height (after c s)) = (width s, height s)) \/
  exists d,
    layerSizes (after c s) = (d, d, d, d) /\
    (width (after c s), height (after c s)) = d.
Proof.
  destruct c; unfold after, perform;
    try (left; unfold erasePoint, getContext, bind;
         destruct (selectionOverlay s);
         [destruct (getImageData _ _ _ _ _)|]; split; reflexivity);
    try (left; unfold_calls;
         repeat match goal with
           | |- context [match ?x with _ => _ end] => destruct x
           end;
         split; reflexivity).
  - left. unfold undo, getContext.
    destruct (pop (undoStack s)) as [[imageData rest]|];
      [|split; reflexivity].
    destruct (currentSnapshot s); [|split; reflexivity].
    destruct allowRedo; split; reflexivity.
  - left. unfold redo, getContext.
    destruct (pop (redoStack s)) as [[imageData rest]|];
      [|split; reflexivity].
    destruct (currentSnapshot s); split; reflexivity.
  - left. apply snapshot_layers.
  - right. eexists. apply setBaseImage_layers.
  - left. unfold commitSelection, getContext.
    match goal with |- context [snapshot ?t] =>
      destruct (snapshot_layers t) as (-> & ->)
    end.
    match goal with |- context [setEditImage None ?t] =>
      destruct (setEditImage_layers None t) as (-> & ->)
    end.
    split; reflexivity.
  - left. unfold smudgeLine, getContext, bind. cbv zeta.
    destruct (fold_left _ _ _) as [context|] eqn:Hfold;
      [|split; reflexivity].
    apply fold_smudgeAt_size in Hfold.
    unfold layerSizes, render, set_editLayer.
    cbn [baseImageLayer refImageLayer editLayer overlayLayer width height].
    rewrite Hfold. split; reflexivity.
  - unfold expandToOverlay, getContext, bind.
    destruct (selectionOverlay s) as [sel|]; [|left; split; reflexivity].
    cbv zeta.
    destruct (drawCanvas _ _ _ _) as [newCanvas|];
      [|left; split; reflexivity].
    right. eexists. apply setBaseImage_layers.
Qed.

(** X5. In every reachable state the base, reference, edit and overlay
    layers have the same width and the same height, and the fields
    [width] and [height] are either still 0 (no image loaded yet) or the
    size of those layers. *)
Theorem layers_share_one_size (s : Renderer) :
  reachable s -> layersAgree s /\ imageSizeRecorded s.
Proof.
  induction 1 as [cw ch|c s _ (IH1 & IH2)].
  - split; [repeat split|left; reflexivity].
  - apply layersAgree_sizes in IH1. destruct IH1 as (d & Hd).
    destruct (after_layers c s) as [(Hl & Hwh)|(d' & Hl & Hwh)].
    + split.
      * apply layersAgree_sizes. exists d. congruence.
      * unfold imageSizeRecorded in *. rewrite Hwh.
        unfold layerSizes in *.
        assert (size (baseImageLayer (after c s)) = size (baseImageLayer s))
          as -> by congruence.
        exact IH2.
    + split.
      * apply layersAgree_sizes. now exists d'.
      * right. rewrite Hwh. unfold layerSizes in Hl. congruence.
Qed.
End LayerSizes.

Lemma layers_share_one_size_witness :
  layersAgree undone /\ imageSizeRecorded undone.
Proof.
  exact (@layers_share_one_size plainPlatform undone reachable_undone).
Defined.

(** ** Selections and the history *)

(** X4. While an edit is open the history is reported as unavailable, but
    only by [canUndo] and [canRedo]: after
    [copyEditImageFromBaseImage()] both are false whatever the stacks
    hold, yet [undo()] still pops the newest undo entry and makes it
    current, and the edit stays open. *)
Theorem open_edit_hides_history_but_undo_acts
  (s : Renderer) (imageData current : ImageData) (rest : list ImageData) :
  undoStack s = rest ++ [imageData] ->
  currentSnapshot s = Some current ->
  let s1 := copyEditImageFromBaseImage s in
  canUndo s1 = false /\ canRedo s1 = false /\
  undoStack (undo true s1) = rest /\
  currentSnapshot (undo true s1) = Some imageData /\
  redoStack (undo true s1) = redoStack s ++ [current] /\
  hasSelection (undo true s1) = true.
Proof.
  intros Hundo Hcur. cbv zeta.
  unfold copyEditImageFromBaseImage, getContext, canUndo, canRedo.
  split; [reflexivity|]. split; [reflexivity|].
  unfold undo, getContext. simpl. rewrite Hundo, Hcur.
  change (rest ++ [imageData]) with (push rest imageData).
  rewrite pop_push. simpl. repeat split.
Qed.

Lemma open_edit_hides_history_but_undo_acts_witness :
  canUndo (copyEditImageFromBaseImage loaded2) = false /\
  undoStack (undo true (copyEditImageFromBaseImage loaded2)) = [].
Proof.
  assert (undoStack loaded2 = [] ++ [image2x2]) as Hu
    by (vm_compute; reflexivity).
  assert (currentSnapshot loaded2 = Some image3x1) as Hc
    by (vm_compute; reflexivity).
  destruct (open_edit_hides_history_but_undo_acts loaded2 image2x2 image3x1 []
              Hu Hc) as (H1 & _ & H3 & _).
  split; [exact H1 | exact H3].
Defined.

(** ** More on erasing *)

Lemma toLong_nonneg_le (q : Q) : (0 <= q)%Q -> 0 <= toLong q.
Proof.
  intros Hq. unfold toLong.
  replace (Qle_bool 0 q) with true by (symmetry; now apply Qle_bool_iff).
  change 0 with (Qfloor 0). now apply Qfloor_resp_le.
Qed.

Lemma eraseAt_cases (sel : Rect) (s : Renderer) (brushx brushy brushSize : Q)
  (k : Z) (p : Pixel) :
  eraseAt sel s brushx brushy brushSize k p = p \/
  eraseAt sel s brushx brushy brushSize k p = setAlpha 0 p.
Proof.
  unfold eraseAt. cbv zeta.
  destruct (negb _); [now left|]. destruct (sqrtLt _ _); [now right|now left].
Qed.

Lemma eraseAt_idempotent (sel : Rect) (s : Renderer)
  (brushx brushy brushSize : Q) (k : Z) (p : Pixel) :
  eraseAt sel s brushx brushy brushSize k
          (eraseAt sel s brushx brushy brushSize k p)
  = eraseAt sel s brushx brushy brushSize k p.
Proof.
  unfold eraseAt. cbv zeta.
  destruct (negb _); [reflexivity|]. destruct (sqrtLt _ _); reflexivity.
Qed.

Section EraseMore.
Context {platform : Platform}.

(** The base layer after [erasePoint] with a selection set and a brush
    size of at least 1. *)
Lemma erasePoint_base (s : Renderer) (sel : Rect) (brushx brushy brushSize : Q) :
  selectionOverlay s = Some sel ->
  1 <= toLong brushSize ->
  let sx := toLong (brushx - brushSize / 2) in
  let sy := toLong (brushy - brushSize / 2) in
  let w := toLong brushSize in
  erasePoint brushx brushy brushSize s
  = Ok (set_baseImageLayer
          (raster (ImageData.width (baseImageLayer s))
                  (ImageData.height (baseImageLayer s))
             (fun px py =>
                if inside w w (px - sx) (py - sy)
                then stored
                       (eraseAt sel s brushx brushy brushSize
                                ((py - sy) * w + (px - sx))
                                (pixelAt (baseImageLayer s) px py))
                else pixelAt (baseImageLayer s) px py)) s).
Proof.
  intros Hsel Hw. cbv zeta.
  rewrite (erasePoint_eq s sel brushx brushy brushSize Hsel) by lia.
  cbv zeta.
  replace (toLong brushSize <? 0) with false by (symmetry; apply Z.ltb_ge; lia).
  rewrite Z.abs_eq by lia. rewrite asStored_raster.
  unfold putImageData. do 2 f_equal.
  apply raster_ext. intros px py Hpx Hpy.
  rewrite width_raster, height_raster.
  destruct (inside _ _ (px - _) (py - _)) eqn:Ein; [|reflexivity].
  rewrite pixelAt_raster, Ein. do 3 f_equal; lia.
Qed.

(** X6. With a selection set and a brush size of at least 1,
    [erasePoint] returns and changes nothing but pixels of the base
    layer, each of which is left as it was or becomes transparent black:
    no pixel gets another colour, the other layers, the selection and the
    history stay as they are, and no snapshot is taken. *)
Theorem erasePoint_only_clears_pixels
  (s : Renderer) (sel : Rect) (brushx brushy brushSize : Q) :
  selectionOverlay s = Some sel ->
  (1 <= brushSize)%Q ->
  wf (baseImageLayer s) ->
  held (baseImageLayer s) ->
  exists s',
    erasePoint brushx brushy brushSize s = Ok s' /\
    s' = set_baseImageLayer (baseImageLayer s') s /\
    size (baseImageLayer s') = size (baseImageLayer s) /\
    forall px py,
      pixelAt (baseImageLayer s') px py = pixelAt (baseImageLayer s) px py \/
      pixelAt (baseImageLayer s') px py = transparentBlack.
Proof.
  intros Hsel Hb Hwf Hheld. eexists.
  split; [apply (erasePoint_base s sel brushx brushy brushSize Hsel);
          now apply toLong_positive|].
  split; [reflexivity|]. split; [reflexivity|].
  intros px py. unfold set_baseImageLayer. cbn [baseImageLayer].
  rewrite pixelAt_raster.
  destruct (inside _ _ px py) eqn:Ein.
  - apply inside_true in Ein. destruct Ein as (Hpx & Hpy).
    destruct (inside _ _ (px - _) (py - _)); [|now left].
    match goal with
    | |- context [eraseAt ?a ?b ?c ?d ?e ?k ?q] =>
        destruct (eraseAt_cases a b c d e k q) as [->| ->]
    end.
    + left. now apply (pixelAt_inside_Forall (fun p => stored p = p)).
    + right. now apply stored_clear.
  - left. symmetry. now apply pixelAt_outside.
Qed.

(** X7. Erasing twice at the same point with the same brush is erasing
    once. *)
Theorem erasePoint_is_idempotent
  (s s' : Renderer) (brushx brushy brushSize : Q) :
  (0 <= brushSize)%Q ->
  erasePoint brushx brushy brushSize s = Ok s' ->
  erasePoint brushx brushy brushSize s' = Ok s'.
Proof.
  intros Hb Hok.
  destruct (selectionOverlay s) as [sel|] eqn:Hsel;
    [|unfold erasePoint in Hok; rewrite Hsel in Hok; discriminate].
  assert (1 <= toLong brushSize) as Hw.
  { pose proof (toLong_nonneg_le brushSize Hb) as H0.
    destruct (Z.eq_dec (toLong brushSize) 0) as [Hz|Hz]; [|lia].
    unfold erasePoint, getContext, bind, getImageData in Hok.
    rewrite Hsel, Hz in Hok. discriminate Hok. }
  rewrite (erasePoint_base s sel brushx brushy brushSize Hsel Hw) in Hok.
  injection Hok as <-.
  match goal with |- erasePoint _ _ _ ?t = _ =>
    rewrite (erasePoint_base t sel brushx brushy brushSize Hsel Hw)
  end.
  cbv zeta. unfold set_baseImageLayer.
  cbn [baseImageLayer refImageLayer editLayer overlayLayer undoStack redoStack
       currentSnapshot overlayImageOpacity referenceImageOpacity
       selectionOverlay hasSelection cursor zoom offsetX offsetY width height
       renderReferenceImages snapshotListeners referenceImages canvasWidth
       canvasHeight notified].
  f_equal. f_equal.
  rewrite width_raster, height_raster.
  apply raster_ext. intros px py Hpx Hpy.
  rewrite pixelAt_raster.
  replace (inside _ _ px py) with true by (symmetry; now apply inside_true).
  destruct (inside _ _ (px - _) (py - _)); [|reflexivity].
  unfold eraseAt. cbv zeta. cbn [width canvasHeight].
  destruct (negb _); [apply stored_stored|].
  destruct (sqrtLt _ _); [|apply stored_stored].
  rewrite !stored_clear by reflexivity. reflexivity.
Qed.
End EraseMore.

Lemma erasePoint_only_clears_pixels_witness :
  exists s', @erasePoint plainPlatform 4 4 3 wholeImage = Ok s' /\
             size (baseImageLayer s') = size (baseImageLayer wholeImage).
Proof.
  assert (selectionOverlay wholeImage
          = Some {| Rect.x := 0; Rect.y := 0;
                    Rect.width := 8; Rect.height := 8 |}) as Hsel
    by (vm_compute; reflexivity).
  assert (1 <= 3)%Q as Hb by discriminate.
  assert (wf (baseImageLayer wholeImage)) as Hwf
    by (apply wfb_wf; vm_compute; reflexivity).
  assert (@held plainPlatform (baseImageLayer wholeImage)) as Hheld
    by (apply heldb_held; vm_compute; reflexivity).
  destruct (@erasePoint_only_clears_pixels plainPlatform wholeImage _ 4 4 3
              Hsel Hb Hwf Hheld)
    as (s' & Hok & _ & Hsize & _).
  exists s'. split; [exact Hok | exact Hsize].
Defined.

Lemma erasePoint_is_idempotent_witness :
  @erasePoint plainPlatform 4 4 3
    (returned (@erasePoint plainPlatform 4 4 3 wholeImage) wholeImage)
  = Ok (returned (@erasePoint plainPlatform 4 4 3 wholeImage) wholeImage).
Proof.
  assert (0 <= 3)%Q as Hb by discriminate.
  apply (@erasePoint_is_idempotent plainPlatform wholeImage _ 4 4 3 Hb).
  vm_compute. reflexivity.
Defined.

(** ** More on the mask conversions *)

(** X8. Each conversion is undone by the other on what the other
    produces: mask to erasure to mask gives back a converted mask, and
    erasure to mask to erasure a converted erasure.
    [convertMaskToErasure] applied twice is the same as once, while
    [convertErasureToMask] applied to its own result gives an all-black
    mask.  Both keep the size of the raster. *)
Theorem mask_conversions_invert_each_other_on_their_results (r : ImageData) :
  convertErasureToMask (convertMaskToErasure (convertErasureToMask r))
  = convertErasureToMask r /\
  convertMaskToErasure (convertErasureToMask (convertMaskToErasure r))
  = convertMaskToErasure r /\
  convertMaskToErasure (convertMaskToErasure r) = convertMaskToErasure r /\
  convertErasureToMask (convertErasureToMask r)
  = ImageData.mk (ImageData.width r) (ImageData.height r)
      (map (fun _ => black) (ImageData.data r)) /\
  size (convertMaskToErasure r) = size r /\
  size (convertErasureToMask r) = size r.
Proof.
  unfold convertErasureToMask, convertMaskToErasure, size; simpl.
  repeat split; f_equal; rewrite ?map_map; apply map_ext; intros p; simpl.
  - destruct (A p <? 255); reflexivity.
  - destruct (R p =? 255); reflexivity.
  - destruct (R p =? 255); reflexivity.
  - destruct (A p <? 255); reflexivity.
Qed.

(** ** More on smudging *)

Lemma canvas_ext (a b : ImageData) :
  wf a -> wf b -> size a = size b ->
  (forall x y, 0 <= x < ImageData.width a -> 0 <= y < ImageData.height a ->
               pixelAt a x y = pixelAt b x y) ->
  a = b.
Proof.
  intros Ha Hb Hs H. unfold size in Hs. injection Hs as Hw Hh.
  rewrite <- (raster_pixelAt a Ha), <- (raster_pixelAt b Hb), <- Hw, <- Hh.
  now apply raster_ext.
Qed.

Lemma round_of_zero (q : Q) : (q == 0)%Q -> Double.round q = 0%Q.
Proof.
  intros H. unfold Double.round.
  now replace (Qeq_bool q 0) with true by (symmetry; now apply Qeq_bool_iff).
Qed.

(** With opacity 0 a byte is blended to itself, whatever the mean. *)
Lemma blended_transparent_brush (average : Q) (original : Z) :
  0 <= original <= 255 ->
  toUint8Clamped
    (Double.add (Double.mul average (Double.round 0))
                (Double.mul (inject_Z original)
                            (Double.sub 1 (Double.round 0))))
  = original.
Proof.
  intros H.
  change (Double.round 0) with 0%Q.
  unfold Double.mul at 1. rewrite (round_of_zero (average * 0)) by ring.
  assert (forallb
            (fun z =>
               toUint8Clamped
                 (Double.add 0 (Double.mul (inject_Z z) (Double.sub 1 0)))
               =? z) (range 0 256) = true) as Hall
    by (vm_compute; reflexivity).
  rewrite forallb_forall in Hall.
  apply Z.eqb_eq. apply Hall. apply in_range. simpl. lia.
Qed.

Section SmudgeMore.
Context {platform : Platform}.

Lemma smudged_transparent_brush (brushSize x y : Q) (c : Canvas) :
  wf c -> held c -> Forall byteColour (ImageData.data c) ->
  smudged brushSize (Double.round 0) c x y = c.
Proof.
  intros Hwf Hheld Hbytes.
  apply canvas_ext; [now apply wf_smudged|assumption|reflexivity|].
  intros px py Hpx Hpy.
  change (ImageData.width (smudged brushSize (Double.round 0) c x y))
    with (ImageData.width c) in Hpx.
  change (ImageData.height (smudged brushSize (Double.round 0) c x y))
    with (ImageData.height c) in Hpy.
  unfold smudged. cbv zeta. rewrite pixelAt_raster.
  replace (inside _ _ px py) with true by (symmetry; now apply inside_true).
  destruct (_ && _); [|reflexivity].
  destruct (pixelAt_inside_Forall byteColour c px py Hwf Hbytes Hpx Hpy)
    as (Hr & Hg & Hbl).
  rewrite !blended_transparent_brush by assumption.
  replace (mkPixel (R (pixelAt c px py)) (G (pixelAt c px py))
                   (B (pixelAt c px py)) (A (pixelAt c px py)))
    with (pixelAt c px py) by (now destruct (pixelAt c px py)).
  now apply (pixelAt_inside_Forall (fun p => stored p = p)).
Qed.

(** X9. With opacity 0 and a brush size of at least 1, [smudgeLine]
    returns and leaves the renderer as it was, whatever the line: each
    colour is blended with none of the mean. *)
Theorem smudgeLine_with_opacity_zero_changes_nothing
  (s : Renderer) (x1 y1 x2 y2 brushSize : Q) :
  (1 <= brushSize)%Q ->
  wf (editLayer s) ->
  held (editLayer s) ->
  Forall byteColour (ImageData.data (editLayer s)) ->
  smudgeLine x1 y1 x2 y2 brushSize 0 s = Ok s.
Proof.
  intros Hb Hwf Hheld Hbytes. unfold smudgeLine, getContext. cbv zeta.
  match goal with
  | |- context [fold_left ?F ?l (Ok (editLayer s))] =>
      assert (fold_left F l (Ok (editLayer s)) = Ok (editLayer s)) as ->
  end.
  { generalize (steps (sqrt ((x2 - x1) * (x2 - x1) + (y2 - y1) * (y2 - y1)))).
    intros l. induction l as [|i l IH]; simpl; [reflexivity|].
    rewrite smudgeAt_smudged by assumption.
    rewrite smudged_transparent_brush by assumption. exact IH. }
  cbn [bind]. now destruct s.
Qed.
End SmudgeMore.

Lemma smudgeLine_with_opacity_zero_changes_nothing_witness :
  @smudgeLine plainPlatform 1 4 5 4 2 0 striped = Ok striped.
Proof.
  apply (@smudgeLine_with_opacity_zero_changes_nothing plainPlatform).
  - discriminate.
  - apply wfb_wf. vm_compute. reflexivity.
  - apply heldb_held. vm_compute. reflexivity.
  - vm_compute. repeat constructor; discriminate.
Defined.

(** ** Growing the image *)

Lemma Qmax_inject_Z (a b : Z) :
  (Qmax (inject_Z a) (inject_Z b) == inject_Z (Z.max a b))%Q.
Proof.
  destruct (Z.max_spec a b) as [[H ->]|[H ->]].
  - apply Q.max_r. rewrite <- Zle_Qle. lia.
  - apply Q.max_l. now rewrite <- Zle_Qle.
Qed.

Lemma Qmin_inject_Z (a b : Z) :
  (Qmin (inject_Z a) (inject_Z b) == inject_Z (Z.min a b))%Q.
Proof.
  destruct (Z.min_spec a b) as [[H ->]|[H ->]].
  - apply Q.min_l. rewrite <- Zle_Qle. lia.
  - apply Q.min_r. now rewrite <- Zle_Qle.
Qed.

Lemma setBaseImage_keeping_selection (image : ImageData) (s : Renderer) :
  let s' := setBaseImage image false s in
  baseImageLayer s'
  = drawImage (blankCanvas (ImageData.width image) (ImageData.height image))
              image 0 0 /\
  width s' = ImageData.width image /\
  height s' = ImageData.height image /\
  selectionOverlay s' = selectionOverlay s.
Proof.
  cbv zeta. unfold setBaseImage, getContext. cbv zeta.
  rewrite snapshot_baseImageLayer, resetView_baseImageLayer,
    snapshot_selectionOverlay, resetView_selectionOverlay.
  repeat split.
  - unfold snapshot, getContext, resetView.
    repeat match goal with
           | |- context [match ?x with _ => _ end] => destruct x
           end; reflexivity.
  - unfold snapshot, getContext, resetView.
    repeat match goal with
           | |- context [match ?x with _ => _ end] => destruct x
           end; reflexivity.
Qed.

Lemma pixelAt_Forall (P : Pixel -> Prop) (c : ImageData) (x y : Z) :
  wf c -> P transparentBlack -> Forall P (ImageData.data c) ->
  P (pixelAt c x y).
Proof.
  intros (Hw & Hh & Hlen) H0 Hall. unfold pixelAt.
  destruct (inside _ _ x y) eqn:E; [|exact H0].
  apply inside_true in E.
  rewrite Forall_forall in Hall. apply Hall. apply nth_In.
  rewrite Hlen. apply index_lt_area; tauto.
Qed.

(** The base image drawn on a clear canvas of another size. *)
Lemma pixelAt_drawn_on_blank (w h dx dy x y : Z) (image : ImageData) :
  pixelAt (drawImage (blankCanvas w h) image dx dy) x y
  = if inside w h x y
       && inside (ImageData.width image) (ImageData.height image)
                 (x - dx) (y - dy)
    then over (pixelAt image (x - dx) (y - dy)) transparentBlack
    else transparentBlack.
Proof.
  unfold drawImage, blankCanvas. cbn [ImageData.width ImageData.height raster].
  rewrite !pixelAt_raster.
  destruct (inside w h x y); [|reflexivity]. cbn [andb].
  now destruct (inside _ _ (x - dx) (y - dy)).
Qed.

Lemma pixelAt_redrawn (w h dx dy x y : Z) (image : ImageData) :
  pixelAt (drawImage (blankCanvas w h)
             (drawImage (blankCanvas w h) image dx dy) 0 0) x y
  = pixelAt (drawImage (blankCanvas w h) image dx dy) x y.
Proof.
  rewrite (pixelAt_drawn_on_blank w h 0 0).
  change (ImageData.width (drawImage (blankCanvas w h) image dx dy)) with w.
  change (ImageData.height (drawImage (blankCanvas w h) image dx dy)) with h.
  rewrite !Z.sub_0_r, pixelAt_drawn_on_blank.
  destruct (inside w h x y); [|reflexivity]. cbn [andb].
  destruct (inside _ _ _ _); [apply over_clear_idempotent|reflexivity].
Qed.

(** X10. With a selection at whole-number coordinates and a base layer
    that has pixels, [expandToOverlay] returns and the image becomes the bounding box of the old image and
    the selection: it never shrinks.  The selection is moved to
    non-negative coordinates and lies within the new image.  The old
    image keeps its content, shifted right and down by the amount the
    selection stuck out on the left and at the top (a fully transparent
    pixel is stored as transparent black), and the rest of the new image
    is transparent black. *)
Theorem expandToOverlay_grows_the_image_to_hold_the_selection
  (s : Renderer) (sx sy sw sh : Z) :
  selectionOverlay s
  = Some (Rect.mk (inject_Z sx) (inject_Z sy) (inject_Z sw) (inject_Z sh)) ->
  0 <= sw -> 0 <= sh ->
  wf (baseImageLayer s) ->
  0 < ImageData.width (baseImageLayer s) ->
  0 < ImageData.height (baseImageLayer s) ->
  Forall (fun p => 0 <= A p) (ImageData.data (baseImageLayer s)) ->
  let W := ImageData.width (baseImageLayer s) in
  let H := ImageData.height (baseImageLayer s) in
  let ox := Z.max 0 (- sx) in
  let oy := Z.max 0 (- sy) in
  exists s',
    expandToOverlay s = Ok s' /\
    width s' = Z.max (sx + sw) W - Z.min 0 sx /\
    height s' = Z.max (sy + sh) H - Z.min 0 sy /\
    size (baseImageLayer s') = (width s', height s') /\
    selectionOverlay s'
    = Some (Rect.mk (inject_Z (Z.max 0 sx)) (inject_Z (Z.max 0 sy))
                    (inject_Z sw) (inject_Z sh)) /\
    ImageData.width (baseImageLayer s) <= width s' /\
    ImageData.height (baseImageLayer s) <= height s' /\
    Z.max 0 sx + sw <= width s' /\
    Z.max 0 sy + sh <= height s' /\
    (forall x y,
        let p := pixelAt (baseImageLayer s) x y in
        let p' := pixelAt (baseImageLayer s') (x + ox) (y + oy) in
        A p' = A p /\ (0 < A p -> p' = p)) /\
    (forall x y,
        inside W H (x - ox) (y - oy) = false ->
        pixelAt (baseImageLayer s') x y = transparentBlack).
Proof.
  intros Hsel Hsw Hsh Hwf HW0 HH0 Halpha W H ox oy.
  unfold expandToOverlay, getContext. rewrite Hsel. cbv zeta.
  unfold drawCanvas.
  replace (ImageData.width (baseImageLayer s) =? 0) with false
    by (symmetry; apply Z.eqb_neq; lia).
  replace (ImageData.height (baseImageLayer s) =? 0) with false
    by (symmetry; apply Z.eqb_neq; lia).
  cbn [orb bind].
  cbn [Rect.x Rect.y Rect.width Rect.height].
  eexists. split; [reflexivity|].
  set (W' := Z.max (sx + sw) W - Z.min 0 sx).
  set (H' := Z.max (sy + sh) H - Z.min 0 sy).
  assert (forall a b c : Z,
             toDimension (Qmax (inject_Z a + inject_Z b) (inject_Z c)
                          - Qmin 0 (inject_Z a))
             = Z.max 0 (Z.max (a + b) c - Z.min 0 a)) as Hdim.
  { intros a b c. unfold toDimension. f_equal.
    rewrite (toLong_comp _ (inject_Z (Z.max (a + b) c - Z.min 0 a)));
      [apply toLong_inject_Z|].
    unfold Zminus. rewrite inject_Z_plus, inject_Z_opp.
    rewrite <- Qmax_inject_Z, <- Qmin_inject_Z, inject_Z_plus. reflexivity. }
  assert (forall a : Z,
             toLong (Qmax 0 (inject_Z a * - (1))) = Z.max 0 (- a)) as Hoff.
  { intros a.
    rewrite (toLong_comp _ (inject_Z (Z.max 0 (- a))));
      [apply toLong_inject_Z|].
    rewrite <- Qmax_inject_Z, inject_Z_opp.
    apply Q.max_compat; [reflexivity|ring]. }
  rewrite !Hdim, !Hoff. fold W H W' H' ox oy.
  assert (0 <= W /\ 0 <= H) as (HW & HH) by (destruct Hwf; tauto).
  rewrite (Z.max_r 0 W'), (Z.max_r 0 H') by (unfold W', H'; lia).
  match goal with
  | |- context [setBaseImage ?i false ?t] =>
      destruct (setBaseImage_keeping_selection i t) as (Eb & Ew & Eh & Es)
  end.
  rewrite Eb, Ew, Eh, Es. clear Eb Ew Eh Es.
  change (ImageData.width (drawImage (blankCanvas W' H') (baseImageLayer s)
                             ox oy)) with W'.
  change (ImageData.height (drawImage (blankCanvas W' H') (baseImageLayer s)
                              ox oy)) with H'.
  assert (forall x y,
             pixelAt (drawImage (blankCanvas W' H')
                        (drawImage (blankCanvas W' H') (baseImageLayer s)
                                   ox oy) 0 0) (x + ox) (y + oy)
             = over (pixelAt (baseImageLayer s) x y) transparentBlack) as Hpix.
  { intros x y. rewrite pixelAt_redrawn, pixelAt_drawn_on_blank. fold W H.
    replace (x + ox - ox) with x by lia. replace (y + oy - oy) with y by lia.
    destruct (inside W H x y) eqn:E.
    - assert (inside W' H' (x + ox) (y + oy) = true) as ->
        by (apply inside_true in E; apply inside_true; unfold W', H', ox, oy;
            lia).
      reflexivity.
    - rewrite (pixelAt_outside (baseImageLayer s) x y E), andb_false_r.
      reflexivity. }
  cbn [selectionOverlay set_selectionOverlay].
  repeat split; try (unfold W', H'; fold W H; lia).
  - change 0%Q with (inject_Z 0). rewrite !Qltb_inject_Z.
    destruct (sx <? 0) eqn:Ex; cbn [Rect.x Rect.y Rect.width Rect.height];
      rewrite ?Qltb_inject_Z; destruct (sy <? 0) eqn:Ey;
      [apply Z.ltb_lt in Ex, Ey|apply Z.ltb_lt in Ex; apply Z.ltb_ge in Ey
      |apply Z.ltb_ge in Ex; apply Z.ltb_lt in Ey
      |apply Z.ltb_ge in Ex, Ey];
      rewrite ?(Z.max_l 0 sx), ?(Z.max_r 0 sx), ?(Z.max_l 0 sy),
        ?(Z.max_r 0 sy) by lia; reflexivity.
  - rewrite Hpix, over_clear.
    pose proof (pixelAt_Forall (fun p => 0 <= A p) (baseImageLayer s) x y
                  Hwf ltac:(simpl; lia) Halpha) as Ha. cbv beta in Ha.
    destruct (A (pixelAt (baseImageLayer s) x y) * 255 <=? 0) eqn:El;
      [apply Z.leb_le in El|reflexivity].
    simpl. lia.
  - intros Ha. rewrite Hpix, over_clear.
    destruct (A (pixelAt (baseImageLayer s) x y) * 255 <=? 0) eqn:El;
      [apply Z.leb_le in El; lia|reflexivity].
  - intros x y E. rewrite pixelAt_redrawn, pixelAt_drawn_on_blank.
    fold W H. now rewrite E, andb_false_r.
Qed.

Lemma expandToOverlay_grows_the_image_to_hold_the_selection_witness :
  exists s', expandToOverlay overhang = Ok s' /\
             width s' = 10 /\ height s' = 8.
Proof.
  assert (selectionOverlay overhang
          = Some (Rect.mk (inject_Z (-2)) (inject_Z 0)
                          (inject_Z 10) (inject_Z 8))) as Hsel
    by (vm_compute; reflexivity).
  assert (wf (baseImageLayer overhang)) as Hwf
    by (apply wfb_wf; vm_compute; reflexivity).
  assert (Forall (fun p => 0 <= A p)
                 (ImageData.data (baseImageLayer overhang))) as Ha
    by (vm_compute; repeat constructor; discriminate).
  destruct (expandToOverlay_grows_the_image_to_hold_the_selection
              overhang (-2) 0 10 8 Hsel ltac:(lia) ltac:(lia) Hwf
              ltac:(vm_compute; reflexivity) ltac:(vm_compute; reflexivity)
              Ha)
    as (s' & Hok & Hw & Hh & _).
  exists s'. split; [exact Hok|]. split; [exact Hw | exact Hh].
Defined.

(** ** Placing and committing an edit image *)

Lemma over_nothing (d : Pixel) :
  d = transparentBlack \/ A d = 255 -> over transparentBlack d = d.
Proof.
  intros [->|Hd]; [reflexivity|].
  unfold over. rewrite Hd. simpl.
  assert (forall c, c * 255 * 255 = c * 65025) as E by (intros; lia).
  rewrite !E, !rdiv_exact by lia.
  destruct d; simpl in *; subst; reflexivity.
Qed.

Lemma snapshot_editLayer (s : Renderer) :
  editLayer (snapshot s) = editLayer s.
Proof.
  unfold snapshot, getContext.
  destruct (currentSnapshot s); simpl; [|reflexivity].
  destruct (0 <? length (redoStack s))%nat; simpl;
    destruct (maxSnapshots <? _)%nat; reflexivity.
Qed.

Lemma opaque_or_clear (p : Pixel) :
  p = transparentBlack \/ A p = 255 -> A p = 0 \/ A p = 255.
Proof. intros [->|H]; [now left | now right]. Qed.

(** X11. [setEditImage(image)] with a selection set puts the image on a
    cleared edit layer with its top left corner at the selection's, cut
    off at the layer's edges, and leaves the base layer alone.
    [commitSelection()] then puts the image's opaque pixels onto the
    base layer there and changes no other pixel of the base layer,
    clears the edit layer and ends the edit.  The image and the base
    layer are taken to have opaque or clear pixels and the edit layer
    the base layer's size. *)
Theorem edit_image_is_pasted_at_the_selection
  (s : Renderer) (sel : Rect) (imageData : ImageData) :
  selectionOverlay s = Some sel ->
  wf (baseImageLayer s) ->
  size (editLayer s) = size (baseImageLayer s) ->
  Forall (fun p => p = transparentBlack \/ A p = 255)
         (ImageData.data (baseImageLayer s)) ->
  wf imageData ->
  Forall (fun p => p = transparentBlack \/ A p = 255)
         (ImageData.data imageData) ->
  let dx := toLong (Rect.x sel) in
  let dy := toLong (Rect.y sel) in
  let placed := setEditImage (Some imageData) s in
  let s' := commitSelection placed in
  hasSelection placed = true /\
  baseImageLayer placed = baseImageLayer s /\
  hasSelection s' = false /\
  editLayer s'
  = blankCanvas (ImageData.width (editLayer s)) (ImageData.height (editLayer s)) /\
  size (baseImageLayer s') = size (baseImageLayer s) /\
  forall x y,
    0 <= x < ImageData.width (baseImageLayer s) ->
    0 <= y < ImageData.height (baseImageLayer s) ->
    (pixelAt (editLayer placed) x y
     = if inside (ImageData.width imageData) (ImageData.height imageData)
                 (x - dx) (y - dy)
       then pixelAt imageData (x - dx) (y - dy)
       else transparentBlack) /\
    (pixelAt (baseImageLayer s') x y
     = if inside (ImageData.width imageData) (ImageData.height imageData)
                 (x - dx) (y - dy)
          && (A (pixelAt imageData (x - dx) (y - dy)) =? 255)
       then pixelAt imageData (x - dx) (y - dy)
       else pixelAt (baseImageLayer s) x y).
Proof.
  intros Hsel Hwf Hsize Hall Hwfi Halli dx dy placed s'.
  unfold size in Hsize. injection Hsize as Hw Hh.
  assert (editLayer placed
          = putImageData (clearRect (editLayer s)) imageData dx dy /\
          baseImageLayer placed = baseImageLayer s /\
          hasSelection placed = true /\
          selectionOverlay placed = Some sel) as (He & Hb & Hs & Hsel').
  { unfold placed, setEditImage, getContext. cbv zeta.
    cbn [selectionOverlay set_hasSelection]. rewrite Hsel.
    repeat split. exact Hsel. }
  assert (forall x y,
             0 <= x < ImageData.width (baseImageLayer s) ->
             0 <= y < ImageData.height (baseImageLayer s) ->
             pixelAt (editLayer placed) x y
             = if inside (ImageData.width imageData)
                         (ImageData.height imageData) (x - dx) (y - dy)
               then pixelAt imageData (x - dx) (y - dy)
               else transparentBlack) as Hedit.
  { intros x y Hx Hy. rewrite He. unfold putImageData.
    rewrite pixelAt_raster.
    change (ImageData.width (clearRect (editLayer s)))
      with (ImageData.width (editLayer s)).
    change (ImageData.height (clearRect (editLayer s)))
      with (ImageData.height (editLayer s)).
    rewrite Hw, Hh.
    replace (inside _ _ x y) with true by (symmetry; now apply inside_true).
    destruct (inside _ _ (x - dx) (y - dy)); [reflexivity|].
    unfold clearRect, blankCanvas.
    rewrite pixelAt_raster. now destruct (inside _ _ x y). }
  assert (baseImageLayer s'
          = drawImage (baseImageLayer s) (editLayer placed) 0 0) as Hflat.
  { unfold s'. rewrite commitSelection_eq, snapshot_baseImageLayer.
    match goal with
    | |- baseImageLayer (setEditImage None ?t) = _ =>
        destruct (setEditImage_None t) as (_ & -> & _)
    end.
    cbn [baseImageLayer set_baseImageLayer]. rewrite Hb.
    apply commit_flatten; [assumption| | |].
    - rewrite He. exact Hw.
    - rewrite He. exact Hh.
    - eapply Forall_impl; [|exact Hall]. apply opaque_or_clear. }
  split; [exact Hs|]. split; [exact Hb|].
  split; [|split; [|split]].
  - unfold s'. rewrite commitSelection_eq, snapshot_hasSelection.
    match goal with
    | |- hasSelection (setEditImage None ?t) = _ =>
        now destruct (setEditImage_None t) as (-> & _)
    end.
  - unfold s'. rewrite commitSelection_eq, snapshot_editLayer.
    unfold setEditImage at 1. unfold getContext. cbv zeta.
    cbn [selectionOverlay set_hasSelection set_baseImageLayer].
    rewrite Hsel'. cbn [editLayer set_editLayer set_hasSelection render
                          set_baseImageLayer notifySnapshotListeners
                          set_notified].
    rewrite He. reflexivity.
  - rewrite Hflat. reflexivity.
  - intros x y Hx Hy. split; [now apply Hedit|].
    rewrite Hflat, pixelAt_drawImage by assumption.
    rewrite !Z.sub_0_r.
    replace (inside _ _ x y) with true
      by (symmetry; apply inside_true; rewrite He; cbn; lia).
    rewrite Hedit by assumption.
    assert (pixelAt (baseImageLayer s) x y = transparentBlack \/
            A (pixelAt (baseImageLayer s) x y) = 255) as Hbase
      by (apply (pixelAt_Forall
                   (fun p => p = transparentBlack \/ A p = 255));
          [assumption|now left|assumption]).
    destruct (inside _ _ (x - dx) (y - dy)); cbn [andb];
      [|now apply over_nothing].
    destruct (pixelAt_Forall
                (fun p => p = transparentBlack \/ A p = 255)
                imageData (x - dx) (y - dy) Hwfi (or_introl eq_refl) Halli)
      as [E|E]; rewrite E.
    + change (A transparentBlack =? 255) with false. cbv iota.
      now apply over_nothing.
    + rewrite Z.eqb_refl. now apply over_opaque_source.
Qed.

Lemma edit_image_is_pasted_at_the_selection_witness :
  hasSelection (setEditImage (Some image2x2) wholeImage) = true /\
  hasSelection (commitSelection (setEditImage (Some image2x2) wholeImage))
  = false.
Proof.
  assert (selectionOverlay wholeImage
          = Some {| Rect.x := 0; Rect.y := 0;
                    Rect.width := 8; Rect.height := 8 |}) as Hsel
    by (vm_compute; reflexivity).
  assert (wf (baseImageLayer wholeImage)) as Hwf
    by (apply wfb_wf; vm_compute; reflexivity).
  assert (size (editLayer wholeImage) = size (baseImageLayer wholeImage))
    as Hsize by (vm_compute; reflexivity).
  assert (Forall (fun p => p = transparentBlack \/ A p = 255)
                 (ImageData.data (baseImageLayer wholeImage))) as Hall
    by (vm_compute;
        repeat (apply Forall_cons; [right; reflexivity|]); apply Forall_nil).
  assert (wf image2x2) as Hwfi
    by (apply wfb_wf; vm_compute; reflexivity).
  assert (Forall (fun p => p = transparentBlack \/ A p = 255)
                 (ImageData.data image2x2)) as Halli
    by (vm_compute;
        repeat (apply Forall_cons; [right; reflexivity|]); apply Forall_nil).
  destruct (edit_image_is_pasted_at_the_selection wholeImage _ image2x2
              Hsel Hwf Hsize Hall Hwfi Halli) as (H1 & _ & H2 & _).
  split; [exact H1 | exact H2].
Defined.

(** An opaque image drawn over a canvas of its size replaces it. *)
Lemma drawImage_opaque (c image : Canvas) :
  wf image -> size c = size image ->
  Forall (fun p => A p = 255) (ImageData.data image) ->
  drawImage c image 0 0 = image.
Proof.
  intros Hwf Hsize Hall. unfold size in Hsize. injection Hsize as Hw Hh.
  destruct Hwf as (HW & HH & Hlen).
  apply canvas_ext.
  - apply wf_drawImage; lia.
  - repeat split; assumption.
  - unfold size, drawImage. cbn [ImageData.width ImageData.height raster].
    now rewrite Hw, Hh.
  - intros x y Hx Hy.
    change (ImageData.width (drawImage c image 0 0))
      with (ImageData.width c) in Hx.
    change (ImageData.height (drawImage c image 0 0))
      with (ImageData.height c) in Hy.
    rewrite pixelAt_drawImage, !Z.sub_0_r by assumption.
    rewrite Hw in Hx. rewrite Hh in Hy.
    replace (inside _ _ x y) with true by (symmetry; now apply inside_true).
    apply over_opaque_source.
    apply (pixelAt_inside_Forall (fun p => A p = 255)); try assumption.
    repeat split; assumption.
Qed.

(** X12. On a fully opaque base image, [copyEditImageFromBaseImage()]
    makes the edit layer an exact copy of the base layer, whatever the
    edit layer held, and opens an edit; [commitSelection()] after it
    leaves the base layer as it was and closes the edit. *)
Theorem committing_a_copy_of_an_opaque_base_changes_nothing (s : Renderer) :
  wf (baseImageLayer s) ->
  size (editLayer s) = size (baseImageLayer s) ->
  Forall (fun p => A p = 255) (ImageData.data (baseImageLayer s)) ->
  let copied := copyEditImageFromBaseImage s in
  editLayer copied = baseImageLayer s /\
  hasSelection copied = true /\
  baseImageLayer copied = baseImageLayer s /\
  baseImageLayer (commitSelection copied) = baseImageLayer s /\
  hasSelection (commitSelection copied) = false.
Proof.
  intros Hwf Hsize Hall copied.
  assert (editLayer copied = baseImageLayer s) as He.
  { unfold copied, copyEditImageFromBaseImage, getContext. cbv zeta.
    cbn [editLayer set_editLayer set_hasSelection render
           notifySnapshotListeners set_notified baseImageLayer].
    now apply drawImage_opaque. }
  assert (baseImageLayer copied = baseImageLayer s) as Hb by reflexivity.
  repeat split; try assumption.
  - rewrite commitSelection_eq, snapshot_baseImageLayer.
    match goal with
    | |- baseImageLayer (setEditImage None ?t) = _ =>
        destruct (setEditImage_None t) as (_ & -> & _)
    end.
    cbn [baseImageLayer set_baseImageLayer]. rewrite Hb, He.
    rewrite commit_flatten; try reflexivity; try assumption.
    + now apply drawImage_opaque.
    + eapply Forall_impl; [|exact Hall]. intros p Hp. now right.
  - rewrite commitSelection_eq, snapshot_hasSelection.
    match goal with
    | |- hasSelection (setEditImage None ?t) = _ =>
        now destruct (setEditImage_None t) as (-> & _)
    end.
Qed.

Lemma committing_a_copy_of_an_opaque_base_changes_nothing_witness :
  baseImageLayer (commitSelection (copyEditImageFromBaseImage wholeImage))
  = baseImageLayer wholeImage.
Proof.
  assert (wf (baseImageLayer wholeImage)) as Hwf
    by (apply wfb_wf; vm_compute; reflexivity).
  assert (size (editLayer wholeImage) = size (baseImageLayer wholeImage))
    as Hsize by (vm_compute; reflexivity).
  assert (Forall (fun p => A p = 255)
                 (ImageData.data (baseImageLayer wholeImage))) as Hall
    by (vm_compute;
        repeat (apply Forall_cons; [reflexivity|]); apply Forall_nil).
  destruct (committing_a_copy_of_an_opaque_base_changes_nothing wholeImage
              Hwf Hsize Hall) as (_ & _ & _ & H & _).
  exact H.
Defined.
